(** * ramlfications/parameters.py: normalisation and inheritance of RAML
      parameters, bodies, responses and security schemes.

    A shallow embedding of [parameters.py].  Decoded RAML data is a tree of
    Python values; attrs instances are attribute dictionaries read and
    written by name ([getattr]/[setattr]); the [errors] lists are shared
    mutable objects, so every record only holds a reference to one and the
    lists themselves live in a store threaded through normalisation. *)

From Stdlib Require Import ZArith Ascii String List Sorted Permutation.
From stdpp Require Import base option gmap strings list.

Set Warnings "-register-all".
Open Scope string_scope.

(** ** Python values *)

(** Hashable scalars: the values that can be the key of a mapping.  Floats
    are not part of the model. *)
Inductive scalar :=
| SNone
| SBool (b : bool)
| SInt (z : Z)
| SStr (s : string).

(** A decoded document: scalars, sequences and insertion-ordered mappings. *)
Inductive value :=
| VScalar (s : scalar)
| VList (l : list value)
| VDict (d : list (scalar * value)).

Abbreviation VNone := (VScalar SNone).
Abbreviation VBool b := (VScalar (SBool b)).
Abbreviation VInt z := (VScalar (SInt z)).
Abbreviation VStr s := (VScalar (SStr s)).
Abbreviation dict := (list (scalar * value)).

Inductive exn :=
| TypeError
| AttributeError
| IndexError
| AssertionError
| ValidationError (msg : string).

Inductive outcome (A : Type) :=
| Ok (a : A)
| Raise (e : exn).
Arguments Ok {A} a.
Arguments Raise {A} e.

Definition obind {A B} (m : outcome A) (k : A -> outcome B) : outcome B :=
  match m with
  | Ok a => k a
  | Raise e => Raise e
  end.

Declare Scope py_scope.
Delimit Scope py_scope with py.
Notation "'let?' x ':=' m 'in' k" := (obind m (fun x => k))
  (at level 10, x name, m at level 100, k at level 200) : py_scope.
Open Scope py_scope.

#[global] Instance scalar_eq_dec : EqDecision scalar.
Proof. solve_decision. Defined.

(** [bool] is a subclass of [int]: [True == 1] and [False == 0]. *)
Definition as_number (s : scalar) : option Z :=
  match s with
  | SBool b => Some (Z.b2z b)
  | SInt z => Some z
  | _ => None
  end.

(** [a == b] on scalars. *)
Definition scalar_eq (a b : scalar) : bool :=
  match as_number a, as_number b with
  | Some x, Some y => Z.eqb x y
  | _, _ =>
      match a, b with
      | SNone, SNone => true
      | SStr x, SStr y => String.eqb x y
      | _, _ => false
      end
  end.

(** [a < b] on scalars (Python 3): numbers with numbers, text with text,
    anything else is a [TypeError]. *)
Definition scalar_lt (a b : scalar) : outcome bool :=
  match as_number a, as_number b with
  | Some x, Some y => Ok (Z.ltb x y)
  | _, _ =>
      match a, b with
      | SStr x, SStr y => Ok (String.ltb x y)
      | _, _ => Raise TypeError
      end
  end.

(** [d.get(k)] on the entries of a mapping, as an option. *)
Fixpoint dict_find (k : scalar) (d : dict) : option value :=
  match d with
  | [] => None
  | (k', v) :: d' => if scalar_eq k' k then Some v else dict_find k d'
  end.

(** [a == b].  Sequences compare element by element, mappings compare as
    sets of entries (same size, every key of the left one bound to an equal
    value on the right). *)
Fixpoint py_eq (a b : value) {struct a} : bool :=
  match a, b with
  | VScalar x, VScalar y => scalar_eq x y
  | VList l1, VList l2 =>
      (fix all2 (l1 l2 : list value) {struct l1} : bool :=
         match l1, l2 with
         | [], [] => true
         | x :: xs, y :: ys => py_eq x y && all2 xs ys
         | _, _ => false
         end) l1 l2
  | VDict d1, VDict d2 =>
      Nat.eqb (length d1) (length d2) &&
      (fix every (d1 : dict) {struct d1} : bool :=
         match d1 with
         | [] => true
         | (k, v) :: rest =>
             match dict_find k d2 with
             | Some w => py_eq v w
             | None => false
             end && every rest
         end) d1
  | _, _ => false
  end.

(** [a < b]: sequences are ordered by their first differing element. *)
Fixpoint py_lt (a b : value) {struct a} : outcome bool :=
  match a, b with
  | VScalar x, VScalar y => scalar_lt x y
  | VList l1, VList l2 =>
      (fix lex (l1 l2 : list value) {struct l1} : outcome bool :=
         match l1, l2 with
         | [], [] => Ok false
         | [], _ :: _ => Ok true
         | _ :: _, [] => Ok false
         | x :: xs, y :: ys => if py_eq x y then lex xs ys else py_lt x y
         end) l1 l2
  | _, _ => Raise TypeError
  end.

(** Truth value of an object, as tested by [if v:]. *)
Definition truthy (v : value) : bool :=
  match v with
  | VNone => false
  | VBool b => b
  | VInt z => negb (Z.eqb z 0)
  | VStr s => negb (String.eqb s "")
  | VList l => negb (Nat.eqb (length l) 0)
  | VDict d => negb (Nat.eqb (length d) 0)
  end.

(** [v is None]. *)
Definition is_None (v : value) : bool :=
  match v with
  | VNone => true
  | _ => false
  end.

(** [isinstance(v, dict)]. *)
Definition is_dict (v : value) : bool :=
  match v with
  | VDict _ => true
  | _ => false
  end.

(** [isinstance(v, list)]. *)
Definition is_list (v : value) : bool :=
  match v with
  | VList _ => true
  | _ => false
  end.

(** The key under which [v] is stored in a mapping; lists and mappings are
    unhashable. *)
Definition as_key (v : value) : outcome scalar :=
  match v with
  | VScalar s => Ok s
  | _ => Raise TypeError
  end.

(** [v.get(item, default)]: only mappings have a [get] method. *)
Definition py_get (v : value) (item : string) (default : value) : outcome value :=
  match v with
  | VDict d => Ok (match dict_find (SStr item) d with Some x => x | None => default end)
  | _ => Raise AttributeError
  end.

(** ** Objects and the shared error lists *)

(** The functions of the module that declare [errors=[]].  A default
    argument is evaluated once, when the function is defined, so each of
    these owns one list for the life of the process; the classmethods of
    [BaseParameter] are inherited, not redefined, by its subclasses. *)
Inductive pyfun :=
| BaseParameter_init
| BaseParameter_init_list
| Body_init
| Body_init_list
| Response_init
| Response_init_list.

(** The identity of an [errors] list: the default of a function, or a list
    made by a caller. *)
Inductive list_ref :=
| DefaultArg (f : pyfun)
| Alloc (n : nat).

#[global] Instance pyfun_eq_dec : EqDecision pyfun.
Proof. solve_decision. Defined.
#[global] Instance list_ref_eq_dec : EqDecision list_ref.
Proof. solve_decision. Defined.

(** The contents of every [errors] list. *)
Definition store := list_ref -> list string.

Definition empty_store : store := fun _ => [].

(** [errors.append(d)] *)
Definition append (r : list_ref) (d : string) (st : store) : store :=
  fun r' => if decide (r = r') then (st r' ++ [d])%list else st r'.

Definition M (A : Type) := store -> outcome (A * store).

Definition ret {A} (a : A) : M A := fun st => Ok (a, st).
Definition raise {A} (e : exn) : M A := fun _ => Raise e.
Definition lift {A} (o : outcome A) : M A :=
  fun st => match o with Ok a => Ok (a, st) | Raise e => Raise e end.
Definition bind {A B} (m : M A) (k : A -> M B) : M B :=
  fun st => match m st with Ok (a, st') => k a st' | Raise e => Raise e end.

Notation "'let!' x ':=' m 'in' k" := (bind m (fun x => k))
  (at level 10, x name, m at level 100, k at level 200) : py_scope.

Inductive param_class :=
| BaseParameter
| URIParameter
| QueryParameter
| FormParameter
| Header.

Inductive class :=
| Named (c : param_class)
| Body.

#[global] Instance param_class_eq_dec : EqDecision param_class.
Proof. solve_decision. Defined.

(** An instance of [BaseParameter], of one of its subclasses, or of [Body]:
    its attribute dictionary, and the list its [errors] attribute refers
    to. *)
Record instance := Instance {
  class_of : class;
  attrs : gmap string value;
  errors_of : list_ref
}.

(** [getattr(o, n, default)] *)
Definition getattr (o : instance) (n : string) (default : value) : value :=
  match attrs o !! n with
  | Some v => v
  | None => default
  end.

(** [o.n]: an [AttributeError] when [o] has no attribute [n]. *)
Definition attr (o : instance) (n : string) : outcome value :=
  match attrs o !! n with
  | Some v => Ok v
  | None => Raise AttributeError
  end.

(** [setattr(o, n, v)] *)
Definition setattr (o : instance) (n : string) (v : value) : instance :=
  Instance (class_of o) (<[n := v]> (attrs o)) (errors_of o).

Record content := Content_ { data : value }.

Record documentation := Documentation_ {
  _title : value;
  _content : value
}.

Record response := Response_ {
  resp_code : value;
  resp_raw : value;
  resp_desc : value;
  resp_headers : option (list instance);
  resp_body : option (list instance);
  resp_config : value;
  resp_errors : list_ref;
  resp_method : value
}.

(** A response as its merge sees it: the record that [init] built, and the
    attributes that [setattr] has added to the instance since. *)
Record response_object := ResponseObject {
  declared : response;
  added : gmap string value
}.

(** What [SecurityScheme.from_file] attaches to a scheme with [setattr]. *)
Inductive attachment :=
| Instances (l : option (list instance))
| Responses (l : option (list response))
| Documentations (l : option (list documentation))
| Verbatim (v : value).

Record security_scheme := SecurityScheme_ {
  ss_name : value;
  ss_raw : value;
  ss_type : value;
  ss_described_by : value;
  ss_desc : value;
  ss_settings : value;
  ss_config : value;
  ss_errors : list_ref;
  ss_attached : gmap string attachment
}.

(** The root node, as far as [from_file] reads it. *)
Record root_node := RootNode {
  root_config : value;
  root_errors : list_ref
}.

(** ** The imported collaborators *)

(** What a validator does with a value: nothing, record a diagnostic in the
    [errors] list of the instance and go on, or raise. *)
Inductive verdict :=
| Accept
| Collect (d : string)
| Reject (d : string).

(** The functions imported from [.utils], [.validate] and [markdown2].  They
    are not part of this module; a validator is called by attrs as
    [validator(inst, attribute, value)] once every attribute is assigned,
    and observes the instance without changing it. *)
Class Env := {
  load_schema : value -> value;
  markdown : value -> value;
  string_type_parameter : instance -> string -> value -> verdict;
  integer_number_type_parameter : instance -> string -> value -> verdict;
  header_type : instance -> string -> value -> verdict;
  body_mime_type : instance -> string -> value -> verdict;
  body_schema : instance -> string -> value -> verdict;
  body_example : instance -> string -> value -> verdict;
  body_form : instance -> string -> value -> verdict;
  response_code : response -> string -> value -> verdict;
  defined_sec_scheme_settings : security_scheme -> string -> value -> verdict
}.

(** [attr.validators.instance_of(dict)] *)
Definition instance_of_dict (v : value) : M unit :=
  if is_dict v then ret tt else raise TypeError.

(** The effect of one imported validator on the list [errors]. *)
Definition apply_verdict (errors : list_ref) (w : verdict) : M unit :=
  match w with
  | Accept => ret tt
  | Collect d => fun st => Ok (tt, append errors d st)
  | Reject d => raise (ValidationError d)
  end.

(** One validated attribute of an instance: its name and its validator. *)
Inductive check :=
| InstanceOfDict
| Imported (f : instance -> string -> value -> verdict).

Definition run_check (inst : instance) (c : string * check) : M unit :=
  let v := getattr inst (fst c) VNone in
  match snd c with
  | InstanceOfDict => instance_of_dict v
  | Imported f => apply_verdict (errors_of inst) (f inst (fst c) v)
  end.

(** The validators of an instance, run in the order of the attributes. *)
Fixpoint run_checks (inst : instance) (cs : list (string * check)) : M unit :=
  match cs with
  | [] => ret tt
  | c :: cs' => let! _ := run_check inst c in run_checks inst cs'
  end.

Definition HTTP_METHODS : list string :=
  ["get"; "post"; "put"; "delete"; "patch"; "options";
   "head"; "trace"; "connect"].

Definition NAMED_PARAMS : list string :=
  ["desc"; "type"; "enum"; "pattern"; "minimum"; "maximum"; "example";
   "default"; "required"; "repeat"; "display_name"; "max_length";
   "min_length"].

(** ** Helpers shared by the classes *)

(** [for x in l: out.append(f(x))] *)
Fixpoint for_each {A B} (f : A -> M B) (l : list A) : M (list B) :=
  match l with
  | [] => ret []
  | x :: l' =>
      let! y := f x in
      let! ys := for_each f l' in
      ret (y :: ys)
  end.

(** [six.iteritems(data)]: the entries of a mapping, in its order. *)
Definition iteritems (data : value) : outcome dict :=
  match data with
  | VDict d => Ok d
  | _ => Raise AttributeError
  end.

(** [l or None] *)
Definition or_None {A} (l : list A) : option (list A) :=
  match l with
  | [] => None
  | _ => Some l
  end.

(** The body of every merge loop:
[[
    attr = getattr(self, n, None)
    if attr is None:
        attr = getattr(param, n, None)
        setattr(self, n, attr)
]] *)
Definition inherit_attr (param self : instance) (n : string) : instance :=
  if is_None (getattr self n VNone)
  then setattr self n (getattr param n VNone)
  else self.

(** [for n in names: ...] over the body above. *)
Definition inherit_attrs (names : list string) (self param : instance) : instance :=
  fold_left (inherit_attr param) names self.

(** [if self.desc: return Content(self.desc)], else [None]. *)
Definition describe (desc : value) : option content :=
  if truthy desc then Some (Content_ desc) else None.

(** [sorted(l, key=key)]: a stable sort that only asks [<] of the keys; a
    comparison that raises aborts the sort. *)
Fixpoint insert_sorted {A} (key : A -> value) (x : A) (l : list A) : outcome (list A) :=
  match l with
  | [] => Ok [x]
  | y :: l' =>
      let? before := py_lt (key y) (key x) in
      if before
      then let? r := insert_sorted key x l' in Ok (y :: r)
      else Ok (x :: y :: l')
  end.

Fixpoint sorted {A} (key : A -> value) (l : list A) : outcome (list A) :=
  match l with
  | [] => Ok []
  | x :: l' => let? s := sorted key l' in insert_sorted key x s
  end.

Module Content.
Definition raw (self : content) : value := data self.

Definition html `{Env} (self : content) : value := markdown (data self).

Definition __repr__ (self : content) : value := raw self.
End Content.

Module BaseParameter.
Definition description (self : instance) : outcome (option content) :=
  let? desc := attr self "desc" in
  Ok (describe desc).

Fixpoint _inherit_type_properties (self : instance)
    (inherited_param : list instance) : outcome instance :=
  match inherited_param with
  | [] => Ok self
  | param :: rest =>
      let name := getattr param "name" (getattr param "code" VNone) in
      let? self_name := attr self "name" in
      if py_eq name self_name
      then _inherit_type_properties (inherit_attrs NAMED_PARAMS self param) rest
      else _inherit_type_properties self rest
  end.

Definition _get (data : value) (item : string) (default : value) : outcome value :=
  match py_get data item default with
  | Ok v => Ok v
  | Raise AttributeError => Ok default
  | Raise e => Raise e
  end.

(** The validated attributes of [BaseParameter], in declaration order;
    [Header] declares one more. *)
Definition validators `{Env} (cls : param_class) : list (string * check) :=
  [("raw", InstanceOfDict);
   ("min_length", Imported string_type_parameter);
   ("max_length", Imported string_type_parameter);
   ("minimum", Imported integer_number_type_parameter);
   ("maximum", Imported integer_number_type_parameter);
   ("config", InstanceOfDict);
   ("pattern", Imported string_type_parameter);
   ("enum", Imported string_type_parameter)]
  ++ (if decide (cls = Header) then [("type", Imported header_type)] else []).

(** The call of [cls] on the keywords that [init] collects in [arguments].  [BaseParameter]
    itself declares neither [required] nor [type], so its generated
    [__init__] refuses them; the subclasses store every keyword and then
    run their validators. *)
Definition __init__ `{Env} (cls : param_class) (arguments : gmap string value)
    (errors : list_ref) : M instance :=
  match cls with
  | BaseParameter => raise TypeError
  | _ =>
      let self := Instance (Named cls) arguments errors in
      let! _ := run_checks self (validators cls) in
      ret self
  end.

Definition init `{Env} (cls : param_class) (name data config : value)
    (errors : list_ref) (kwargs : dict) : M instance :=
  let! required :=
    lift (if decide (cls = URIParameter)
          then _get data "required" (VBool true)
          else _get data "required" (VBool false)) in
  let! key := lift (as_key name) in
  let! desc := lift (_get data "description" VNone) in
  let! display_name := lift (_get data "displayName" name) in
  let! min_length := lift (_get data "minLength" VNone) in
  let! max_length := lift (_get data "maxLength" VNone) in
  let! minimum := lift (_get data "minimum" VNone) in
  let! maximum := lift (_get data "maximum" VNone) in
  let! default := lift (_get data "default" VNone) in
  let! enum := lift (_get data "enum" VNone) in
  let! example := lift (_get data "example" VNone) in
  let! repeat := lift (_get data "repeat" (VBool false)) in
  let! pattern := lift (_get data "pattern" VNone) in
  let! type := lift (_get data "type" (VStr "string")) in
  let arguments : gmap string value :=
    list_to_map
      [("name", name);
       ("raw", VDict [(key, data)]);
       ("desc", desc);
       ("display_name", display_name);
       ("min_length", min_length);
       ("max_length", max_length);
       ("minimum", minimum);
       ("maximum", maximum);
       ("default", default);
       ("enum", enum);
       ("example", example);
       ("required", required);
       ("repeat", repeat);
       ("pattern", pattern);
       ("type", type);
       ("config", config)] in
  if decide (cls = Header)
  then
    let! method := lift (_get (VDict kwargs) "method" VNone) in
    __init__ cls (<["method" := method]> arguments) errors
  else __init__ cls arguments errors.

(** Initialise a list of BaseParameters out of a list of attributes. *)
Definition init_list `{Env} (cls : param_class) (data config : value)
    (errors : list_ref) (kwargs : dict) : M (option (list instance)) :=
  let! items := lift (iteritems data) in
  let! objects :=
    for_each (fun kv => init cls (VScalar (fst kv)) (snd kv) config errors kwargs)
             items in
  ret (or_None objects).
End BaseParameter.

Module Documentation.
Definition title (self : documentation) : content := Content_ (_title self).

Definition content (self : documentation) : content := Content_ (_content self).
End Documentation.

Module Header.
Definition description (self : instance) : outcome (option content) :=
  let? desc := attr self "desc" in
  Ok (describe desc).

Definition _inherit_type_properties (self : instance)
    (inherited_param : list instance) : instance :=
  let params := (NAMED_PARAMS ++ ["method"])%list in
  fold_left (inherit_attrs params) inherited_param self.

(** [init] and [init_list] are inherited from [BaseParameter]. *)
Definition init `{Env} := BaseParameter.init Header.

Definition init_list `{Env} := BaseParameter.init_list Header.
End Header.

Module Body.
Fixpoint _inherit_type_properties (self : instance)
    (inherited_param : list instance) : outcome instance :=
  let body_params := ["schema"; "example"; "form_params"] in
  match inherited_param with
  | [] => Ok self
  | param :: rest =>
      let? theirs := attr param "mime_type" in
      let? mine := attr self "mime_type" in
      if negb (py_eq theirs mine)
      then _inherit_type_properties self rest
      else _inherit_type_properties (inherit_attrs body_params self param) rest
  end.

Definition validators `{Env} : list (string * check) :=
  [("mime_type", Imported body_mime_type);
   ("raw", InstanceOfDict);
   ("schema", Imported body_schema);
   ("example", Imported body_example);
   ("form_params", Imported body_form);
   ("config", InstanceOfDict)].

Definition __init__ `{Env} (arguments : gmap string value)
    (errors : list_ref) : M instance :=
  let self := Instance Body arguments errors in
  let! _ := run_checks self validators in
  ret self.

Definition init `{Env} (name data config : value) (errors : list_ref)
    (kwargs : dict) : M instance :=
  let! schema := lift (BaseParameter._get data "schema" VNone) in
  let! example := lift (BaseParameter._get data "example" VNone) in
  let! form_params := lift (BaseParameter._get data "formParameters" VNone) in
  let arguments : gmap string value :=
    list_to_map
      [("mime_type", name);
       ("raw", data);
       ("schema", load_schema schema);
       ("example", load_schema example);
       ("form_params", form_params);
       ("config", config)] in
  __init__ arguments errors.

Definition init_list `{Env} (data config : value) (errors : list_ref)
    (kwargs : dict) : M (option (list instance)) :=
  let! items := lift (iteritems data) in
  let! bodies :=
    for_each (fun kv => init (VScalar (fst kv)) (snd kv) config errors kwargs)
             items in
  ret (Some bodies).
End Body.

Module Response.
Definition description (self : response) : option content :=
  describe (resp_desc self).

Definition __init__ `{Env} (code raw desc : value)
    (headers body : option (list instance)) (config : value)
    (errors : list_ref) : M response :=
  let self := Response_ code raw desc headers body config errors VNone in
  let! _ := apply_verdict errors (response_code self "code" code) in
  let! _ := instance_of_dict raw in
  let! _ := instance_of_dict config in
  ret self.

(** The two nested calls leave [errors] out, so each of them runs with
    the default list of the function called. *)
Definition init `{Env} (name data config : value) (errors : list_ref)
    (kwargs : dict) : M response :=
  let! desc := lift (py_get data "description" VNone) in
  let! raw_headers := lift (py_get data "headers" (VDict [])) in
  let! headers :=
    Header.init_list raw_headers config (DefaultArg BaseParameter_init_list) [] in
  let! raw_body := lift (py_get data "body" (VDict [])) in
  let! body :=
    Body.init_list raw_body config (DefaultArg Body_init_list) [] in
  __init__ name data desc headers body config errors.

Definition init_list `{Env} (data config : value) (errors : list_ref)
    (kwargs : dict) : M (list response) :=
  let! items := lift (iteritems data) in
  let! responses :=
    for_each (fun kv => init (VScalar (fst kv)) (snd kv) config errors kwargs)
             items in
  lift (sorted resp_code responses).

(** [getattr(o, n, default)] on a response.  Of the declared attributes,
    [code], [raw], [desc], [config] and [method] hold values; [headers],
    [body] and [errors] do not, and nothing in the module asks for them by
    name.  Any other name is an attribute only once [setattr] has added
    it. *)
Definition getattr (o : response_object) (n : string) (default : value) : value :=
  if String.eqb n "code" then resp_code (declared o)
  else if String.eqb n "raw" then resp_raw (declared o)
  else if String.eqb n "desc" then resp_desc (declared o)
  else if String.eqb n "config" then resp_config (declared o)
  else if String.eqb n "method" then resp_method (declared o)
  else match added o !! n with
       | Some v => v
       | None => default
       end.

(** [setattr(o, n, v)] on a response, for the same names. *)
Definition setattr (o : response_object) (n : string) (v : value) : response_object :=
  let r := declared o in
  if String.eqb n "code"
  then ResponseObject
         (Response_ v (resp_raw r) (resp_desc r) (resp_headers r) (resp_body r)
            (resp_config r) (resp_errors r) (resp_method r)) (added o)
  else if String.eqb n "raw"
  then ResponseObject
         (Response_ (resp_code r) v (resp_desc r) (resp_headers r) (resp_body r)
            (resp_config r) (resp_errors r) (resp_method r)) (added o)
  else if String.eqb n "desc"
  then ResponseObject
         (Response_ (resp_code r) (resp_raw r) v (resp_headers r) (resp_body r)
            (resp_config r) (resp_errors r) (resp_method r)) (added o)
  else if String.eqb n "config"
  then ResponseObject
         (Response_ (resp_code r) (resp_raw r) (resp_desc r) (resp_headers r)
            (resp_body r) v (resp_errors r) (resp_method r)) (added o)
  else if String.eqb n "method"
  then ResponseObject
         (Response_ (resp_code r) (resp_raw r) (resp_desc r) (resp_headers r)
            (resp_body r) (resp_config r) (resp_errors r) v) (added o)
  else ResponseObject r (<[n := v]> (added o)).

(** The body of the merge loop, on a response. *)
Definition inherit_attr (param self : response_object) (n : string)
    : response_object :=
  if is_None (getattr self n VNone)
  then setattr self n (getattr param n VNone)
  else self.

Definition _inherit_type_properties (self : response_object)
    (inherited_param : list response_object) : response_object :=
  fold_left (fun self param => fold_left (inherit_attr param) NAMED_PARAMS self)
            inherited_param self.
End Response.

Module SecurityScheme.
Definition description (self : security_scheme) : option content :=
  describe (ss_desc self).

(** The classes [from_file] dispatches to. *)
Inductive data_cls :=
| ParamCls (c : param_class)
| BodyCls
| ResponseCls.

(** An entry of [classes]: a class, or a list of an attribute name and a
    class. *)
Inductive entry :=
| Plain (c : data_cls)
| Renamed (attribute_name : string) (c : data_cls).

Definition classes : list (string * entry) :=
  [("headers", Plain (ParamCls Header));
   ("body", Plain BodyCls);
   ("responses", Plain ResponseCls);
   ("queryParameters", Renamed "query_params" (ParamCls QueryParameter));
   ("uriParameters", Renamed "uri_params" (ParamCls URIParameter));
   ("formParameters", Renamed "form_params" (ParamCls FormParameter))].

Definition other : list (string * string) :=
  [("usage", "usage");
   ("mediaType", "media_type");
   ("protocols", "protocols")].

(** [table[obj]] for a table keyed by strings, when [obj in table]. *)
Fixpoint lookup {A} (obj : scalar) (table : list (string * A)) : option (string * A) :=
  match table with
  | [] => None
  | (k, a) :: table' =>
      if scalar_eq (SStr k) obj then Some (k, a) else lookup obj table'
  end.

(** [data_cls.init_list(scheme_data, root.config)]: [errors] is left out,
    so the default list of the function called is used. *)
Definition dispatch `{Env} (c : data_cls) (scheme_data config : value) : M attachment :=
  match c with
  | ParamCls pc =>
      let! l := BaseParameter.init_list pc scheme_data config
                  (DefaultArg BaseParameter_init_list) [] in
      ret (Instances l)
  | BodyCls =>
      let! l := Body.init_list scheme_data config (DefaultArg Body_init_list) [] in
      ret (Instances l)
  | ResponseCls =>
      let! l := Response.init_list scheme_data config
                  (DefaultArg Response_init_list) [] in
      ret (Responses (Some l))
  end.

Definition attach (scheme : security_scheme) (n : string) (a : attachment)
    : security_scheme :=
  SecurityScheme_ (ss_name scheme) (ss_raw scheme) (ss_type scheme)
    (ss_described_by scheme) (ss_desc scheme) (ss_settings scheme)
    (ss_config scheme) (ss_errors scheme) (<[n := a]> (ss_attached scheme)).

(** One round of the loop over [scheme.described_by]. *)
Definition describe_by `{Env} (root : root_node) (scheme : security_scheme)
    (item : scalar * value) : M security_scheme :=
  let obj := fst item in
  let scheme_data := snd item in
  match lookup obj classes with
  | Some (key, value) =>
      let attribute_name :=
        match value with Renamed n _ => n | Plain _ => key end in
      let data_cls :=
        match value with Renamed _ c => c | Plain c => c end in
      let! l := dispatch data_cls scheme_data (root_config root) in
      ret (attach scheme attribute_name l)
  | None =>
      if scalar_eq obj (SStr "documentation")
      then
        match scheme_data with
        | VList entries =>
            let! docs :=
              for_each (fun i =>
                          let! t := lift (py_get i "title" VNone) in
                          let! c := lift (py_get i "content" VNone) in
                          ret (Documentation_ t c))
                       entries in
            ret (attach scheme "documentation" (Documentations (or_None docs)))
        | _ => raise AssertionError
        end
      else
        match lookup obj other with
        | Some (_, n) => ret (attach scheme n (Verbatim scheme_data))
        | None => ret scheme
        end
  end.

Fixpoint describe_all `{Env} (root : root_node) (scheme : security_scheme)
    (items : dict) : M security_scheme :=
  match items with
  | [] => ret scheme
  | item :: items' =>
      let! scheme' := describe_by root scheme item in
      describe_all root scheme' items'
  end.

(** [for s in schemes]: what iterating a value yields. *)
Definition py_iter (v : value) : outcome (list value) :=
  match v with
  | VList l => Ok l
  | VDict d => Ok (map (fun kv => VScalar (fst kv)) d)
  | VStr s => Ok (map (fun c => VStr (String c "")) (list_ascii_of_string s))
  | _ => Raise TypeError
  end.

(** One round of the loop over [schemes]. *)
Definition scheme_of `{Env} (root : root_node) (s : value) : M security_scheme :=
  let! entries := lift (iteritems s) in
  match entries with
  | [] => raise IndexError
  | (name, data) :: _ =>
      let! type := lift (py_get data "type" VNone) in
      let! described_by := lift (py_get data "describedBy" (VDict [])) in
      let! desc := lift (py_get data "description" VNone) in
      let! settings := lift (py_get data "settings" VNone) in
      let scheme :=
        SecurityScheme_ (VScalar name) data type described_by desc settings
          (root_config root) (root_errors root) ∅ in
      let! _ := instance_of_dict data in
      let! _ := apply_verdict (ss_errors scheme)
                  (defined_sec_scheme_settings scheme "settings" settings) in
      let! items := lift (iteritems (ss_described_by scheme)) in
      describe_all root scheme items
  end.

(** Parse security schemes into [SecurityScheme] objects. *)
Definition from_file `{Env} (raml : value) (root : root_node)
    : M (option (list security_scheme)) :=
  let! schemes := lift (py_get raml "securitySchemes" (VList [])) in
  let! items := lift (py_iter schemes) in
  let! scheme_objs := for_each (scheme_of root) items in
  ret (or_None scheme_objs).
End SecurityScheme.

(** ** Environments to run the code in *)

(** Validation switched off: every imported validator accepts, the schema
    loader and the renderer hand their argument back. *)
Definition lenient : Env := {|
  load_schema := fun v => v;
  markdown := fun v => v;
  string_type_parameter := fun _ _ _ => Accept;
  integer_number_type_parameter := fun _ _ _ => Accept;
  header_type := fun _ _ _ => Accept;
  body_mime_type := fun _ _ _ => Accept;
  body_schema := fun _ _ _ => Accept;
  body_example := fun _ _ _ => Accept;
  body_form := fun _ _ _ => Accept;
  response_code := fun _ _ _ => Accept;
  defined_sec_scheme_settings := fun _ _ _ => Accept
|}.

(** Modelled from the spec: the two validators of the named parameters,
    which live in [validate.py].  A length, pattern or enumeration is valid
    only on a parameter of type [string], a range only on one of type
    [integer] or [number]; an unset field is never at fault.  In strict mode
    the validator raises, in permissive mode it records one diagnostic in
    the errors list of the instance. *)
Definition type_is (inst : instance) (allowed : list string) : bool :=
  existsb (fun t => py_eq (getattr inst "type" VNone) (VStr t)) allowed.

Definition constrained (strict : bool) (allowed : list string)
    (inst : instance) (a : string) (v : value) : verdict :=
  if is_None v then Accept
  else if type_is inst allowed then Accept
  else if strict then Reject a
  else Collect a.

Definition checking (strict : bool) : Env := {|
  load_schema := fun v => v;
  markdown := fun v => v;
  string_type_parameter := constrained strict ["string"];
  integer_number_type_parameter := constrained strict ["integer"; "number"];
  header_type := fun _ _ _ => Accept;
  body_mime_type := fun _ _ _ => Accept;
  body_schema := fun _ _ _ => Accept;
  body_example := fun _ _ _ => Accept;
  body_form := fun _ _ _ => Accept;
  response_code := fun _ _ _ => Accept;
  defined_sec_scheme_settings := fun _ _ _ => Accept
|}.

(** ** Vocabulary of the specification *)

(** The value an unset attribute [n] ends up with: that of the first
    ancestor that passes the identity test and has [n] set, or [None]. *)
Definition nearest (matches : instance -> bool) (n : string)
    (ancestors : list instance) : value :=
  match List.find (fun a => matches a && negb (is_None (getattr a n VNone)))
                  ancestors with
  | Some a => getattr a n VNone
  | None => VNone
  end.

(** First-set-wins: the local value when there is one, the nearest
    inherited one otherwise. *)
Definition merged (matches : instance -> bool) (n : string)
    (self : instance) (ancestors : list instance) : value :=
  if is_None (getattr self n VNone)
  then nearest matches n ancestors
  else getattr self n VNone.

(** Whether the declaration [data] is a mapping with an entry for [item]. *)
Definition declares (data : value) (item : string) : bool :=
  match data with
  | VDict d => match dict_find (SStr item) d with Some _ => true | None => false end
  | _ => false
  end.

(** An ancestor contributes nothing to attribute [n]: it fails the identity
    test, or its own [n] is unset. *)
Definition skipped (matches : instance -> bool) (n : string) (b : instance) : Prop :=
  matches b = false \/ getattr b n VNone = VNone.

(** ** Example records *)

(** An instance of class [c] with the given attributes, reporting to the
    caller's list [Alloc 0]. *)
Definition record (c : class) (fields : list (string * value)) : instance :=
  Instance c (list_to_map fields) (Alloc 0).

(** A query parameter that declares its own type. *)
Definition limit_typed : instance :=
  record (Named QueryParameter)
    [("name", VStr "limit"); ("type", VStr "number"); ("desc", VNone)].

(** The same parameter with nothing but its name. *)
Definition limit_bare : instance :=
  record (Named QueryParameter) [("name", VStr "limit"); ("type", VNone)].

Definition offset_trait : instance :=
  record (Named QueryParameter)
    [("name", VStr "offset"); ("type", VStr "number")].

Definition limit_trait : instance :=
  record (Named QueryParameter)
    [("name", VStr "limit"); ("type", VStr "integer"); ("desc", VStr "page size")].

(** A header with no type, and an inherited header of another name. *)
Definition rate_header : instance :=
  record (Named Header) [("name", VStr "X-Rate"); ("type", VNone)].

Definition accept_header : instance :=
  record (Named Header)
    [("name", VStr "Accept"); ("type", VStr "string"); ("method", VStr "get")].

(** A JSON body with no schema, and two inherited bodies. *)
Definition json_body : instance :=
  record Body [("mime_type", VStr "application/json"); ("schema", VNone)].

Definition xml_parent : instance :=
  record Body [("mime_type", VStr "text/xml"); ("schema", VStr "<xs:schema/>")].

Definition json_parent : instance :=
  record Body [("mime_type", VStr "application/json"); ("schema", VStr "{}")].

(** ** Vocabulary of normalisation *)

(** What the field extractor finds: the entry of a mapping, the default
    for a missing entry or for anything that is not a mapping. *)
Definition field (data : value) (item : string) (default : value) : value :=
  match data with
  | VDict d =>
      match dict_find (SStr item) d with
      | Some v => v
      | None => default
      end
  | _ => default
  end.

(** The keywords [BaseParameter.init] hands to the class, with every
    extraction resolved. *)
Definition named_arguments (cls : param_class) (name : value) (key : scalar)
    (data config : value) (kwargs : dict) : gmap string value :=
  let arguments : gmap string value :=
    list_to_map
      [("name", name);
       ("raw", VDict [(key, data)]);
       ("desc", field data "description" VNone);
       ("display_name", field data "displayName" name);
       ("min_length", field data "minLength" VNone);
       ("max_length", field data "maxLength" VNone);
       ("minimum", field data "minimum" VNone);
       ("maximum", field data "maximum" VNone);
       ("default", field data "default" VNone);
       ("enum", field data "enum" VNone);
       ("example", field data "example" VNone);
       ("required",
        field data "required" (VBool (if decide (cls = URIParameter) then true else false)));
       ("repeat", field data "repeat" (VBool false));
       ("pattern", field data "pattern" VNone);
       ("type", field data "type" (VStr "string"));
       ("config", config)] in
  if decide (cls = Header)
  then <["method" := field (VDict kwargs) "method" VNone]> arguments
  else arguments.

(** A validator lets an instance through: the attribute is a mapping, or
    the imported validator does not raise. *)
Definition passes (inst : instance) (c : string * check) : Prop :=
  match snd c with
  | InstanceOfDict => is_dict (getattr inst (fst c) VNone) = true
  | Imported f => forall d, f inst (fst c) (getattr inst (fst c) VNone) <> Reject d
  end.

(** The attributes of a named parameter that have no default but [None]. *)
Definition optional_fields : list string :=
  ["desc"; "min_length"; "max_length"; "minimum"; "maximum"; "default";
   "enum"; "example"; "pattern"].

(** ** Vocabulary of ordering *)

(** [a] does not come after [b]: the test [b < a] answers false. *)
Definition not_after (a b : value) : Prop := py_lt b a = Ok false.

(** The key of [x] is a scalar, as every key of a mapping is. *)
Definition scalar_keyed {A} (key : A -> value) (x : A) : Prop :=
  exists s, key x = VScalar s.

(** Keys that can be compared with each other: all numbers, or all text. *)
Definition homogeneous (keys : list scalar) : Prop :=
  Forall (fun k => exists z, as_number k = Some z) keys \/
  Forall (fun k => exists t, k = SStr t) keys.

(** [rs] is [l] sorted by [key], ascending, equal keys in the order of [l]. *)
Definition stably_sorted {A} (key : A -> value) (l rs : list A) : Prop :=
  Permutation l rs /\
  StronglySorted (fun a b => not_after (key a) (key b)) rs /\
  forall c, List.filter (fun r => py_eq (key r) c) rs =
            List.filter (fun r => py_eq (key r) c) l.

(** ** Example documents *)

(** The responses of the specification's example, declared out of order. *)
Definition three_responses : value :=
  VDict [(SStr "404", VDict []); (SStr "200", VDict []); (SStr "500", VDict [])].

(** A header whose length constraint does not fit its type. *)
Definition ill_typed_header : value :=
  VDict [(SStr "type", VStr "integer"); (SStr "minLength", VInt 3)].

(** A response that declares one such header and one body. *)
Definition response_with_header : value :=
  VDict [(SStr "description", VStr "OK");
         (SStr "headers", VDict [(SStr "X-Rate", ill_typed_header)]);
         (SStr "body", VDict [(SStr "application/json", VDict [])])].

(** A document with one security scheme described by one such header. *)
Definition document_with_scheme : value :=
  VDict [(SStr "securitySchemes",
          VList [VDict [(SStr "oauth_2_0",
                         VDict [(SStr "describedBy",
                                 VDict [(SStr "headers",
                                         VDict [(SStr "Authorization",
                                                 ill_typed_header)])])])]])].

(** ** Vocabulary of the further properties *)

(** The RAML keys [BaseParameter.init] reads whose default is [None], each
    with the attribute it is stored under. *)
Definition optional_keys : list (string * string) :=
  [("description", "desc");
   ("minLength", "min_length");
   ("maxLength", "max_length");
   ("minimum", "minimum");
   ("maximum", "maximum");
   ("default", "default");
   ("enum", "enum");
   ("example", "example");
   ("pattern", "pattern")].

(** Every RAML key [BaseParameter.init] reads, with its attribute. *)
Definition declared_keys : list (string * string) :=
  (optional_keys ++
   [("displayName", "display_name");
    ("required", "required");
    ("repeat", "repeat");
    ("type", "type")])%list.

(** The default [BaseParameter.init] gives to [_get] for each key. *)
Definition key_default (cls : param_class) (name : value) (key : string) : value :=
  if String.eqb key "displayName" then name
  else if String.eqb key "type" then VStr "string"
  else if String.eqb key "repeat" then VBool false
  else if String.eqb key "required"
       then VBool (if decide (cls = URIParameter) then true else false)
  else VNone.




(** The attributes [from_file] can attach to a scheme. *)
Definition attachable : list string :=
  ["headers"; "body"; "responses"; "query_params"; "uri_params";
   "form_params"; "documentation"; "usage"; "media_type"; "protocols"].

(** The keys of [describedBy] that [from_file] acts on. *)
Definition handled_keys : list string :=
  ["headers"; "body"; "responses"; "queryParameters"; "uriParameters";
   "formParameters"; "documentation"; "usage"; "mediaType"; "protocols"].

(** What [from_file] makes of one entry [s] of [securitySchemes]: a scheme
    named after the first key of [s], built from the declaration under that
    key and from the configuration and errors list of the root, with
    nothing attached outside [attachable]. *)
Definition scheme_for (root : root_node) (s : value) (scheme : security_scheme) : Prop :=
  exists name data rest,
    s = VDict ((name, data) :: rest) /\
    is_dict data = true /\
    ss_name scheme = VScalar name /\
    ss_raw scheme = data /\
    ss_type scheme = field data "type" VNone /\
    ss_described_by scheme = field data "describedBy" (VDict []) /\
    ss_desc scheme = field data "description" VNone /\
    ss_settings scheme = field data "settings" VNone /\
    ss_config scheme = root_config root /\
    ss_errors scheme = root_errors root /\
    forall n a, ss_attached scheme !! n = Some a -> In n attachable.

(** A scheme with nothing declared and nothing attached. *)
Definition bare_scheme : security_scheme :=
  SecurityScheme_ (VStr "basic") (VDict []) VNone (VDict []) VNone VNone
    (VDict []) (Alloc 1) ∅.

(** The value of the first element of [l] for which [get] is set, [None]
    when there is none. *)
Definition first_set {A} (get : A -> value) (l : list A) : value :=
  match List.find (fun a => negb (is_None (get a))) l with
  | Some a => get a
  | None => VNone
  end.

(** A response with no description, and two inherited ones. *)
Definition plain_response : response_object :=
  ResponseObject
    (Response_ (VInt 404) (VDict []) VNone None (Some []) (VDict []) (Alloc 0) VNone)
    ∅.

Definition silent_response : response_object :=
  ResponseObject
    (Response_ (VInt 200) (VDict []) VNone None (Some []) (VDict []) (Alloc 0) VNone)
    ∅.

Definition described_response : response_object :=
  ResponseObject
    (Response_ (VInt 500) (VDict []) (VStr "Server error") None (Some [])
       (VDict []) (Alloc 0) VNone)
    (<["type" := VStr "object"]> ∅).

(** Two values that [<] can compare: two numbers, or two texts. *)
Definition comparable (u v : value) : Prop :=
  (exists a b x y, u = VScalar a /\ v = VScalar b /\
                   as_number a = Some x /\ as_number b = Some y) \/
  (exists s t, u = VStr s /\ v = VStr t).

(** Responses declared under a number and under the text "default". *)
Definition mixed_responses : value :=
  VDict [(SInt 200, VDict []); (SStr "default", VDict [])].

(** ** The inheritance merge *)

Section Merge.
Implicit Types (self param a : instance) (n m : string).
Implicit Types (names : list string) (ancestors : list instance).

Lemma is_None_true v : is_None v = true <-> v = VNone.
Proof.
  destruct v as [[]| |]; simpl; split; congruence.
Qed.

Lemma getattr_setattr self n m v :
  getattr (setattr self n v) m VNone =
  if decide (n = m) then v else getattr self m VNone.
Proof.
  unfold getattr, setattr; simpl.
  destruct (decide (n = m)) as [->|Hne].
  - by rewrite lookup_insert_eq.
  - by rewrite lookup_insert_ne.
Qed.

Lemma attrs_inherit_attr_ne param self n m :
  n <> m -> attrs (inherit_attr param self n) !! m = attrs self !! m.
Proof.
  intros Hne. unfold inherit_attr.
  destruct (is_None _); [|done].
  simpl. by rewrite lookup_insert_ne.
Qed.

Lemma getattr_inherit_attr param self n m :
  getattr (inherit_attr param self n) m VNone =
  if decide (n = m)
  then (if is_None (getattr self m VNone)
        then getattr param m VNone else getattr self m VNone)
  else getattr self m VNone.
Proof.
  unfold inherit_attr.
  destruct (decide (n = m)) as [->|Hne].
  - destruct (is_None (getattr self m VNone)) eqn:E; [|done].
    rewrite getattr_setattr. by rewrite decide_True.
  - destruct (is_None (getattr self n VNone)); [|done].
    rewrite getattr_setattr. by rewrite decide_False.
Qed.

(** The loop over [names] leaves every other attribute alone. *)
Lemma attrs_inherit_attrs_other names self param m :
  ~ In m names ->
  attrs (inherit_attrs names self param) !! m = attrs self !! m.
Proof.
  unfold inherit_attrs. revert self.
  induction names as [|n names IH]; intros self Hm; simpl; [done|].
  rewrite IH by (intros ?; apply Hm; by right).
  apply attrs_inherit_attr_ne. intros ->. apply Hm. by left.
Qed.

Lemma getattr_inherit_attrs_other names self param m :
  ~ In m names ->
  getattr (inherit_attrs names self param) m VNone = getattr self m VNone.
Proof.
  intros Hm. unfold getattr. by rewrite attrs_inherit_attrs_other.
Qed.

(** The loop over [names] fills [m] from [param] exactly when it is unset. *)
Lemma getattr_inherit_attrs names self param m :
  In m names ->
  getattr (inherit_attrs names self param) m VNone =
  if is_None (getattr self m VNone)
  then getattr param m VNone else getattr self m VNone.
Proof.
  unfold inherit_attrs. revert self.
  induction names as [|n names IH]; intros self Hm; [destruct Hm|].
  simpl. destruct (in_dec string_dec m names) as [Hin|Hout].
  - rewrite IH by done. rewrite getattr_inherit_attr.
    destruct (decide (n = m)) as [->|Hne]; [|done].
    destruct (is_None (getattr self m VNone)) eqn:E; [|by rewrite E].
    by destruct (is_None (getattr param m VNone)).
  - pose proof (getattr_inherit_attrs_other names (inherit_attr param self n) param m Hout) as Ho.
    unfold inherit_attrs in Ho. rewrite Ho, getattr_inherit_attr.
    destruct Hm as [->|Hin]; [|done]. by rewrite decide_True.
Qed.

(** A matching ancestor at the head is absorbed by the loop body. *)
Lemma merged_absorb matches names n self a ancestors :
  In n names -> matches a = true ->
  merged matches n (inherit_attrs names self a) ancestors =
  merged matches n self (a :: ancestors).
Proof.
  intros Hn Hm. unfold merged, nearest. simpl.
  rewrite getattr_inherit_attrs, Hm by done. simpl.
  destruct (is_None (getattr self n VNone)) eqn:Es;
    destruct (is_None (getattr a n VNone)) eqn:Ea;
    simpl; rewrite ?Es, ?Ea; done.
Qed.

(** An ancestor that fails the identity test is skipped. *)
Lemma merged_skip matches n self a ancestors :
  matches a = false ->
  merged matches n self ancestors = merged matches n self (a :: ancestors).
Proof.
  intros Hm. unfold merged, nearest. simpl. by rewrite Hm.
Qed.

Lemma name_not_inherited : ~ In "name" NAMED_PARAMS.
Proof. simpl. intuition discriminate. Qed.

Lemma merge_step self a ancestors :
  BaseParameter._inherit_type_properties self (a :: ancestors) =
  (let? self_name := attr self "name" in
   if py_eq (getattr a "name" (getattr a "code" VNone)) self_name
   then BaseParameter._inherit_type_properties
          (inherit_attrs NAMED_PARAMS self a) ancestors
   else BaseParameter._inherit_type_properties self ancestors).
Proof. reflexivity. Qed.

(** [BaseParameter._inherit_type_properties] returns, and computes
    [merged] under the name test, for every record that has a name. *)
Lemma BaseParameter_merge self ancestors nm :
  attr self "name" = Ok nm ->
  exists r,
    BaseParameter._inherit_type_properties self ancestors = Ok r /\
    (forall n, In n NAMED_PARAMS ->
       getattr r n VNone =
       merged (fun a => py_eq (getattr a "name" (getattr a "code" VNone)) nm)
              n self ancestors) /\
    (forall n, ~ In n NAMED_PARAMS -> attrs r !! n = attrs self !! n).
Proof.
  revert self. induction ancestors as [|a rest IH]; intros self Hname.
  - exists self. split; [reflexivity|]. split; [|done].
    intros n _. unfold merged, nearest. cbn [List.find].
    destruct (is_None (getattr self n VNone)) eqn:E; [|done].
    by apply is_None_true.
  - rewrite merge_step, Hname. cbn [obind].
    destruct (py_eq (getattr a "name" (getattr a "code" VNone)) nm) eqn:Hm.
    + destruct (IH (inherit_attrs NAMED_PARAMS self a)) as (r & Hr & Hin & Hout).
      { unfold attr in *.
        by rewrite (attrs_inherit_attrs_other _ _ _ _ name_not_inherited). }
      exists r. split; [exact Hr|]. split.
      * intros n Hn. rewrite (Hin n Hn).
        exact (merged_absorb _ NAMED_PARAMS n self a rest Hn Hm).
      * intros n Hn. rewrite (Hout n Hn).
        exact (attrs_inherit_attrs_other _ _ _ _ Hn).
    + destruct (IH self Hname) as (r & Hr & Hin & Hout).
      exists r. split; [exact Hr|]. split; [|exact Hout].
      intros n Hn. rewrite (Hin n Hn). exact (merged_skip _ n self a rest Hm).
Qed.

(** The merge loop with no identity test, over any list of names. *)
Lemma unfiltered_merge names : forall ancestors self,
  (forall n, In n names ->
     getattr (fold_left (inherit_attrs names) ancestors self) n VNone =
     merged (fun _ => true) n self ancestors) /\
  (forall n, ~ In n names ->
     attrs (fold_left (inherit_attrs names) ancestors self) !! n =
     attrs self !! n).
Proof.
  induction ancestors as [|a rest IH]; intros self.
  - split; [|done]. intros n _. unfold merged, nearest. cbn [List.find fold_left].
    destruct (is_None (getattr self n VNone)) eqn:E; [|done].
    by apply is_None_true.
  - cbn [fold_left].
    destruct (IH (inherit_attrs names self a)) as [Hin Hout].
    split.
    + intros n Hn. rewrite (Hin n Hn).
      exact (merged_absorb _ names n self a rest Hn eq_refl).
    + intros n Hn. rewrite (Hout n Hn).
      exact (attrs_inherit_attrs_other _ _ _ _ Hn).
Qed.

(** [Header._inherit_type_properties] computes [merged] with no identity
    test at all. *)
Lemma Header_merge self ancestors :
  (forall n, In n (NAMED_PARAMS ++ ["method"])%list ->
     getattr (Header._inherit_type_properties self ancestors) n VNone =
     merged (fun _ => true) n self ancestors) /\
  (forall n, ~ In n (NAMED_PARAMS ++ ["method"])%list ->
     attrs (Header._inherit_type_properties self ancestors) !! n =
     attrs self !! n).
Proof.
  exact (unfiltered_merge (NAMED_PARAMS ++ ["method"])%list ancestors self).
Qed.

Lemma mime_type_not_inherited : ~ In "mime_type" ["schema"; "example"; "form_params"].
Proof. simpl. intuition discriminate. Qed.

(** [Body._inherit_type_properties] returns, and computes [merged] under
    the MIME type test, when the record and its ancestors are bodies. *)
Lemma Body_merge self ancestors mt :
  attr self "mime_type" = Ok mt ->
  Forall (fun a => exists t, attr a "mime_type" = Ok t) ancestors ->
  exists r,
    Body._inherit_type_properties self ancestors = Ok r /\
    (forall n, In n ["schema"; "example"; "form_params"] ->
       getattr r n VNone =
       merged (fun a => py_eq (getattr a "mime_type" VNone) mt) n self ancestors) /\
    (forall n, ~ In n ["schema"; "example"; "form_params"] ->
       attrs r !! n = attrs self !! n).
Proof.
  intros Hmine Hall. revert self Hmine.
  induction Hall as [|a rest [t Ht] _ IH]; intros self Hmine.
  - exists self. split; [done|]. split; [|done].
    intros n _. unfold merged, nearest. simpl.
    destruct (is_None (getattr self n VNone)) eqn:E; [|done].
    by apply is_None_true.
  - simpl. rewrite Ht, Hmine. simpl.
    assert (getattr a "mime_type" VNone = t) as Hg.
    { unfold attr, getattr in *. destruct (attrs a !! "mime_type"); congruence. }
    destruct (py_eq t mt) eqn:Hm; simpl.
    + destruct (IH (inherit_attrs ["schema"; "example"; "form_params"] self a))
        as (r & Hr & Hin & Hout).
      { unfold attr in *.
        by rewrite attrs_inherit_attrs_other by apply mime_type_not_inherited. }
      exists r. split; [done|]. split.
      * intros n Hn. rewrite Hin by done.
        apply (merged_absorb _ ["schema"; "example"; "form_params"]); [done|].
        by rewrite Hg.
      * intros n Hn. rewrite Hout by done.
        by apply attrs_inherit_attrs_other.
    + destruct (IH self Hmine) as (r & Hr & Hin & Hout).
      exists r. split; [done|]. split; [|done].
      intros n Hn. rewrite Hin by done. apply merged_skip. by rewrite Hg.
Qed.
End Merge.

Section MergeClaims.
Implicit Types (self a : instance) (n : string) (ancestors : list instance).

Lemma nearest_first matches n pre a post :
  Forall (skipped matches n) pre ->
  matches a = true -> getattr a n VNone <> VNone ->
  nearest matches n (pre ++ a :: post) = getattr a n VNone.
Proof.
  intros Hpre Hm Hset. unfold nearest.
  induction Hpre as [|b pre Hb _ IH]; simpl.
  - rewrite Hm. simpl.
    destruct (is_None (getattr a n VNone)) eqn:E; [|done].
    by apply is_None_true in E.
  - destruct Hb as [Hb|Hb].
    + by rewrite Hb.
    + rewrite Hb. simpl. by rewrite andb_false_r.
Qed.

Lemma nearest_none matches n ancestors :
  Forall (skipped matches n) ancestors -> nearest matches n ancestors = VNone.
Proof.
  intros Hall. unfold nearest.
  induction Hall as [|b rest Hb _ IH]; simpl; [done|].
  destruct Hb as [Hb|Hb].
  - by rewrite Hb.
  - rewrite Hb. simpl. by rewrite andb_false_r.
Qed.

(** C1: the inheritance merge never overwrites a locally set value.  For
    every record with a name, every ordered list of ancestors and every
    inheritable attribute [n] of [NAMED_PARAMS], when the record's [n] is
    not [None] before [_inherit_type_properties] runs, the merge returns
    and [n] has the same value afterwards; this holds for the merge of
    [BaseParameter] and for the override of [Header]. *)
Theorem merge_keeps_local_value self ancestors n nm :
  In n NAMED_PARAMS ->
  attr self "name" = Ok nm ->
  getattr self n VNone <> VNone ->
  (exists r,
     BaseParameter._inherit_type_properties self ancestors = Ok r /\
     getattr r n VNone = getattr self n VNone) /\
  getattr (Header._inherit_type_properties self ancestors) n VNone =
  getattr self n VNone.
Proof.
  intros Hn Hname Hset.
  assert (is_None (getattr self n VNone) = false) as Hlocal.
  { destruct (is_None _) eqn:E; [|done]. by apply is_None_true in E. }
  split.
  - destruct (BaseParameter_merge self ancestors nm Hname) as (r & Hr & Hin & _).
    exists r. split; [done|].
    rewrite Hin by done. unfold merged. by rewrite Hlocal.
  - destruct (Header_merge self ancestors) as [Hin _].
    rewrite Hin by (apply in_or_app; by left).
    unfold merged. by rewrite Hlocal.
Qed.

Lemma merge_keeps_local_value_witness :
  In "type" NAMED_PARAMS /\
  attr limit_typed "name" = Ok (VStr "limit") /\
  getattr limit_typed "type" VNone <> VNone /\
  ((exists r,
      BaseParameter._inherit_type_properties limit_typed
        [offset_trait; limit_trait] = Ok r /\
      getattr r "type" VNone = getattr limit_typed "type" VNone) /\
   getattr (Header._inherit_type_properties limit_typed
              [offset_trait; limit_trait]) "type" VNone =
   getattr limit_typed "type" VNone).
Proof.
  assert (In "type" NAMED_PARAMS) as H1 by (simpl; tauto).
  assert (attr limit_typed "name" = Ok (VStr "limit")) as H2 by reflexivity.
  assert (getattr limit_typed "type" VNone <> VNone) as H3 by (vm_compute; discriminate).
  exact (conj H1 (conj H2 (conj H3
    (merge_keeps_local_value limit_typed [offset_trait; limit_trait]
       "type" (VStr "limit") H1 H2 H3)))).
Defined.

(** C2: the inheritance merge fills an unset attribute from the nearest
    matching ancestor.  For a record named [nm] whose attribute [n] of
    [NAMED_PARAMS] is unset, [_inherit_type_properties] returns a record
    whose [n] is the value [n] has in the first ancestor whose name equals
    [nm] and whose [n] is set; when every ancestor has another name or
    leaves [n] unset, [n] stays unset. *)
Theorem merge_fills_from_nearest_matching_ancestor self ancestors n nm :
  In n NAMED_PARAMS ->
  attr self "name" = Ok nm ->
  getattr self n VNone = VNone ->
  let same_name a := py_eq (getattr a "name" (getattr a "code" VNone)) nm in
  exists r,
    BaseParameter._inherit_type_properties self ancestors = Ok r /\
    (forall pre a post,
       ancestors = (pre ++ a :: post)%list ->
       Forall (skipped same_name n) pre ->
       same_name a = true ->
       getattr a n VNone <> VNone ->
       getattr r n VNone = getattr a n VNone) /\
    (Forall (skipped same_name n) ancestors -> getattr r n VNone = VNone).
Proof.
  intros Hn Hname Hunset same_name.
  destruct (BaseParameter_merge self ancestors nm Hname) as (r & Hr & Hin & _).
  exists r. split; [done|].
  assert (getattr r n VNone = nearest same_name n ancestors) as Hnear.
  { rewrite Hin by done. unfold merged. by rewrite Hunset. }
  split.
  - intros pre a post -> Hpre Hm Hset.
    rewrite Hnear. by apply nearest_first.
  - intros Hall. rewrite Hnear. by apply nearest_none.
Qed.

(** The record of the specification's example: [type] unset, a first
    ancestor of another name, a second one of the same name and of type
    [integer]. *)
Lemma merge_fills_from_nearest_matching_ancestor_witness :
  In "type" NAMED_PARAMS /\
  attr limit_bare "name" = Ok (VStr "limit") /\
  getattr limit_bare "type" VNone = VNone /\
  exists r,
    BaseParameter._inherit_type_properties limit_bare
      [offset_trait; limit_trait] = Ok r /\
    getattr r "type" VNone = VStr "integer".
Proof.
  assert (In "type" NAMED_PARAMS) as H1 by (simpl; tauto).
  assert (attr limit_bare "name" = Ok (VStr "limit")) as H2 by reflexivity.
  assert (getattr limit_bare "type" VNone = VNone) as H3 by reflexivity.
  split; [exact H1|]. split; [exact H2|]. split; [exact H3|].
  destruct (merge_fills_from_nearest_matching_ancestor limit_bare
              [offset_trait; limit_trait] "type" (VStr "limit") H1 H2 H3)
    as (r & Hr & Hfirst & _).
  exists r. split; [exact Hr|].
  rewrite (Hfirst [offset_trait] limit_trait []).
  - reflexivity.
  - reflexivity.
  - constructor; [left; reflexivity|constructor].
  - reflexivity.
  - vm_compute. discriminate.
Defined.

(** C3: the identity test of the merge differs by kind of entity.  The
    merge of [Header] applies no name filter, every ancestor of the list
    is consulted whatever its name, and it inherits [method] on top of
    [NAMED_PARAMS]; the merge of [Body] consults only the ancestors whose
    [mime_type] equals the record's and inherits exactly [schema],
    [example] and [form_params].  In both, every other attribute is left
    as it was. *)
Theorem merge_identity_rule_by_kind (header body : instance)
    (headers bodies : list instance) (mt : value) :
  attr body "mime_type" = Ok mt ->
  Forall (fun a => exists t, attr a "mime_type" = Ok t) bodies ->
  ((forall n, In n (NAMED_PARAMS ++ ["method"])%list ->
      getattr (Header._inherit_type_properties header headers) n VNone =
      merged (fun _ => true) n header headers) /\
   (forall n, ~ In n (NAMED_PARAMS ++ ["method"])%list ->
      attrs (Header._inherit_type_properties header headers) !! n =
      attrs header !! n)) /\
  (exists r,
     Body._inherit_type_properties body bodies = Ok r /\
     (forall n, In n ["schema"; "example"; "form_params"] ->
        getattr r n VNone =
        merged (fun a => py_eq (getattr a "mime_type" VNone) mt) n body bodies) /\
     (forall n, ~ In n ["schema"; "example"; "form_params"] ->
        attrs r !! n = attrs body !! n)).
Proof.
  intros Hmt Hall. split.
  - apply Header_merge.
  - by apply Body_merge.
Qed.

(** A header inherits [type] and [method] from an ancestor of another
    name; a JSON body skips the XML ancestor and takes the schema of the
    JSON one. *)
Lemma merge_identity_rule_by_kind_witness :
  attr json_body "mime_type" = Ok (VStr "application/json") /\
  Forall (fun a => exists t, attr a "mime_type" = Ok t) [xml_parent; json_parent] /\
  getattr (Header._inherit_type_properties rate_header [accept_header])
    "method" VNone = VStr "get" /\
  getattr (Header._inherit_type_properties rate_header [accept_header])
    "type" VNone = VStr "string" /\
  exists r,
    Body._inherit_type_properties json_body [xml_parent; json_parent] = Ok r /\
    getattr r "schema" VNone = VStr "{}" /\
    attrs r !! "mime_type" = attrs json_body !! "mime_type".
Proof.
  assert (attr json_body "mime_type" = Ok (VStr "application/json")) as H1
    by reflexivity.
  assert (Forall (fun a => exists t, attr a "mime_type" = Ok t)
                 [xml_parent; json_parent]) as H2.
  { constructor; [by eexists|]. constructor; [by eexists|]. constructor. }
  destruct (merge_identity_rule_by_kind rate_header json_body [accept_header]
              [xml_parent; json_parent] _ H1 H2)
    as [[Hin _] (r & Hr & Hbody & Hrest)].
  split; [exact H1|]. split; [exact H2|].
  split; [rewrite Hin by (simpl; tauto); reflexivity|].
  split; [rewrite Hin by (simpl; tauto); reflexivity|].
  exists r. split; [exact Hr|]. split.
  - rewrite Hbody by (simpl; tauto). reflexivity.
  - apply Hrest. simpl. intuition discriminate.
Defined.
End MergeClaims.

(** ** Normalisation *)

Section Monad.
Context {A B : Type}.

Lemma bind_ok (m : M A) (k : A -> M B) st b st' :
  bind m k st = Ok (b, st') ->
  exists a st1, m st = Ok (a, st1) /\ k a st1 = Ok (b, st').
Proof.
  unfold bind. destruct (m st) as [[a st1]|e]; [|discriminate].
  intros Hk. by exists a, st1.
Qed.

Lemma lift_ok (o : outcome A) st a st' :
  lift o st = Ok (a, st') -> o = Ok a /\ st' = st.
Proof.
  unfold lift. destruct o; [|discriminate]. intros [= -> ->]. done.
Qed.

Lemma ret_ok (a a' : A) st st' :
  ret a st = Ok (a', st') -> a' = a /\ st' = st.
Proof. unfold ret. intros [= -> ->]. done. Qed.
End Monad.

Ltac invert_run :=
  repeat match goal with
    | H : bind _ _ _ = Ok _ |- _ =>
        let a := fresh "a" in
        let st := fresh "st" in
        let Ha := fresh "Ha" in
        apply bind_ok in H as (a & st & Ha & H)
    | H : lift _ _ = Ok _ |- _ => apply lift_ok in H as [H ->]
    | H : ret _ _ = Ok _ |- _ => apply ret_ok in H as [-> ->]
    end.

Section Normalise.
Context `{Env}.

(** The field extractor never raises. *)
Lemma get_field data item default :
  BaseParameter._get data item default = Ok (field data item default).
Proof.
  unfold BaseParameter._get, py_get, field.
  destruct data as [s|l|d]; try done.
Qed.

Lemma field_undeclared data item default :
  declares data item = false -> field data item default = default.
Proof.
  unfold declares, field. destruct data as [s|l|d]; try done.
  by destruct (dict_find (SStr item) d).
Qed.

Lemma init_unfold cls name key data config errors kwargs st :
  as_key name = Ok key ->
  BaseParameter.init cls name data config errors kwargs st =
  BaseParameter.__init__ cls (named_arguments cls name key data config kwargs)
    errors st.
Proof.
  intros Hkey. unfold BaseParameter.init, named_arguments.
  rewrite Hkey, !get_field.
  destruct (decide (cls = URIParameter)), (decide (cls = Header));
    rewrite ?get_field; reflexivity.
Qed.

Lemma init_unhashable cls name data config errors kwargs st e :
  as_key name = Raise e ->
  BaseParameter.init cls name data config errors kwargs st = Raise e.
Proof.
  intros Hkey. unfold BaseParameter.init.
  rewrite Hkey, !get_field.
  by destruct (decide (cls = URIParameter)).
Qed.

Lemma new_parameter_inv cls arguments errors st r st' :
  BaseParameter.__init__ cls arguments errors st = Ok (r, st') ->
  cls <> BaseParameter /\ r = Instance (Named cls) arguments errors.
Proof.
  unfold BaseParameter.__init__.
  destruct cls; try discriminate; intros Hrun; invert_run; done.
Qed.

(** What a successful [BaseParameter.init] returns. *)
Lemma init_inv cls name data config errors kwargs st r st' :
  BaseParameter.init cls name data config errors kwargs st = Ok (r, st') ->
  exists key,
    name = VScalar key /\ cls <> BaseParameter /\
    r = Instance (Named cls) (named_arguments cls name key data config kwargs)
          errors.
Proof.
  intros Hrun. destruct (as_key name) as [key|e] eqn:Hkey.
  - rewrite (init_unfold _ _ key) in Hrun by done.
    apply new_parameter_inv in Hrun as [Hcls ->].
    exists key. split; [|done].
    destruct name; simpl in Hkey; congruence.
  - by rewrite (init_unhashable _ _ _ _ _ _ _ e) in Hrun.
Qed.

Lemma run_checks_ok inst cs st :
  Forall (passes inst) cs -> exists st', run_checks inst cs st = Ok (tt, st').
Proof.
  intros Hall. revert st.
  induction Hall as [|[a c] cs Hc _ IH]; intros st; simpl.
  - by exists st.
  - unfold bind, run_check, passes in *. simpl in *.
    destruct c as [|f].
    + unfold instance_of_dict. rewrite Hc. simpl. apply IH.
    + destruct (f inst a (getattr inst a VNone)) as [|d|d] eqn:Hf; simpl.
      * apply IH.
      * apply IH.
      * by destruct (Hc d).
Qed.

Lemma named_arguments_required cls name key data config kwargs :
  named_arguments cls name key data config kwargs !! "required" =
  Some (field data "required"
          (VBool (if decide (cls = URIParameter) then true else false))).
Proof. by destruct cls. Qed.

Lemma named_arguments_raw cls name key data config kwargs :
  named_arguments cls name key data config kwargs !! "raw" =
  Some (VDict [(key, data)]).
Proof. by destruct cls. Qed.

(** C4: required-ness defaults by kind.  When [init] normalises a
    declaration that has no [required] entry (a mapping without the key,
    an empty mapping, [None]), the record it returns has [required] true
    for [URIParameter] and false for [QueryParameter], [FormParameter]
    and [Header]. *)
Theorem required_defaults_by_kind cls name data config errors kwargs st r st' :
  declares data "required" = false ->
  BaseParameter.init cls name data config errors kwargs st = Ok (r, st') ->
  In cls [URIParameter; QueryParameter; FormParameter; Header] /\
  attrs r !! "required" =
  Some (VBool (if decide (cls = URIParameter) then true else false)).
Proof.
  intros Hdecl Hrun.
  apply init_inv in Hrun as (key & -> & Hcls & ->). split.
  - destruct cls; simpl; tauto.
  - simpl. rewrite named_arguments_required.
    by rewrite field_undeclared.
Qed.

(** C7: normalisation keeps the raw declaration.  The record returned by
    [BaseParameter.init] has [raw] equal to the one-entry mapping from
    the name to the declaration it was given; the records returned by
    [Body.init] and [Response.init] have [raw] equal to the declaration
    itself. *)
Theorem raw_is_the_declaration cls name data config errors kwargs st r st'
    bname bdata bconfig berrors bkwargs bst b bst'
    rname rdata rconfig rerrors rkwargs rst (resp : response) rst' :
  BaseParameter.init cls name data config errors kwargs st = Ok (r, st') ->
  Body.init bname bdata bconfig berrors bkwargs bst = Ok (b, bst') ->
  Response.init rname rdata rconfig rerrors rkwargs rst = Ok (resp, rst') ->
  (exists key, name = VScalar key /\ attrs r !! "raw" = Some (VDict [(key, data)])) /\
  attrs b !! "raw" = Some bdata /\
  resp_raw resp = rdata.
Proof.
  intros Hparam Hbody Hresp. split; [|split].
  - apply init_inv in Hparam as (key & -> & _ & ->).
    exists key. split; [done|]. simpl. apply named_arguments_raw.
  - unfold Body.init in Hbody. rewrite !get_field in Hbody.
    unfold Body.__init__ in Hbody. invert_run. done.
  - unfold Response.init, Response.__init__ in Hresp. invert_run. done.
Qed.

(** C9: normalisation tolerates a missing declaration.  The field
    extractor returns the default it is given, and never raises, when
    the data is [None] or has no entry for the item.  So [init] on a
    [None] or empty declaration, for a name that is a mapping key, a
    configuration that is a mapping and imported validators that do not
    raise on an unset field or on the default type, returns a record with
    [type] "string", [repeat] false, [display_name] the name, and every
    optional field unset. *)
Theorem normalisation_tolerates_missing_declaration
    cls name key data config errors kwargs st :
  cls <> BaseParameter ->
  data = VNone \/ data = VDict [] ->
  name = VScalar key ->
  is_dict config = true ->
  (forall inst a d, string_type_parameter inst a VNone <> Reject d) ->
  (forall inst a d, integer_number_type_parameter inst a VNone <> Reject d) ->
  (forall inst d, getattr inst "config" VNone = config ->
                  header_type inst "type" (VStr "string") <> Reject d) ->
  (forall any item default,
     any = VNone \/ declares any item = false ->
     BaseParameter._get any item default = Ok default) /\
  exists r st',
    BaseParameter.init cls name data config errors kwargs st = Ok (r, st') /\
    attrs r !! "type" = Some (VStr "string") /\
    attrs r !! "repeat" = Some (VBool false) /\
    attrs r !! "display_name" = Some name /\
    (forall n, In n optional_fields -> attrs r !! n = Some VNone).
Proof.
  intros Hcls Hdata -> Hconfig Hstr Hnum Hhdr. split.
  - intros any item default Hany. rewrite get_field.
    destruct Hany as [->|Hany]; [done|]. by rewrite field_undeclared.
  - set (inst := Instance (Named cls)
                   (named_arguments cls (VScalar key) key data config kwargs)
                   errors).
    assert (exists st', BaseParameter.__init__ cls
              (named_arguments cls (VScalar key) key data config kwargs)
              errors st = Ok (inst, st')) as [st' Hnew].
    { destruct (run_checks_ok inst (BaseParameter.validators cls) st) as [st' Hrun].
      - destruct config as [s|l|c]; try discriminate.
        destruct Hdata as [->| ->], cls; try done;
          repeat (constructor; try done);
          try (intros d; first [apply Hstr | apply Hnum | by apply Hhdr]).
      - exists st'. unfold BaseParameter.__init__.
        destruct cls; try done; unfold bind; fold inst; by rewrite Hrun. }
    exists inst, st'. rewrite (init_unfold _ _ key) by done.
    split; [done|].
    destruct Hdata as [->| ->], cls; try done;
      (repeat split; try done;
       intros n Hn; simpl in Hn;
       repeat (destruct Hn as [<-|Hn]; [done|]); destruct Hn).
Qed.
End Normalise.

(** ** Ordering of scalars and the stable sort *)

(** Decide a goal about [<?] and [=?] on integers from the hypotheses. *)
Ltac by_order :=
  repeat match goal with
    | H : context [Z.ltb ?a ?b] |- _ => destruct (Z.ltb_spec a b)
    | H : context [Z.eqb ?a ?b] |- _ => destruct (Z.eqb_spec a b)
    | |- context [Z.ltb ?a ?b] => destruct (Z.ltb_spec a b)
    | |- context [Z.eqb ?a ?b] => destruct (Z.eqb_spec a b)
    end;
  first [ done | lia ].

Section ScalarOrder.
Lemma ascii_compare_refl c : Ascii.compare c c = Eq.
Proof. unfold Ascii.compare. apply N.compare_refl. Qed.

Lemma string_compare_refl s : String.compare s s = Eq.
Proof.
  induction s as [|c s IH]; simpl; [done|]. by rewrite ascii_compare_refl.
Qed.

Lemma ascii_compare_lt_trans a b c :
  Ascii.compare a b = Lt -> Ascii.compare b c = Lt -> Ascii.compare a c = Lt.
Proof.
  unfold Ascii.compare. rewrite !N.compare_lt_iff. apply N.lt_trans.
Qed.

Lemma string_compare_lt_trans a : forall b c,
  String.compare a b = Lt -> String.compare b c = Lt -> String.compare a c = Lt.
Proof.
  induction a as [|x a IH]; intros [|y b] [|z c]; simpl; try done.
  destruct (Ascii.compare x y) eqn:Hxy; try done;
    destruct (Ascii.compare y z) eqn:Hyz; try done; intros Hab Hbc.
  - apply Ascii.compare_eq_iff in Hxy as ->. rewrite Hyz. eauto.
  - apply Ascii.compare_eq_iff in Hxy as ->. by rewrite Hyz.
  - apply Ascii.compare_eq_iff in Hyz as <-. by rewrite Hxy.
  - by rewrite (ascii_compare_lt_trans x y z).
Qed.

Lemma string_ltb_asym a b : String.ltb a b = true -> String.ltb b a = false.
Proof.
  unfold String.ltb. rewrite (String.compare_antisym a b).
  by destruct (String.compare b a).
Qed.

Lemma string_ltb_irrefl a : String.ltb a a = false.
Proof. unfold String.ltb. by rewrite string_compare_refl. Qed.

Lemma string_geb_trans x y z :
  String.ltb z y = false -> String.ltb y x = false -> String.ltb z x = false.
Proof.
  unfold String.ltb. intros Hzy Hyx.
  destruct (String.compare z x) eqn:Hzx; try done.
  destruct (String.compare y x) eqn:Hcmp; try done.
  - apply String.compare_eq_iff in Hcmp as ->. by rewrite Hzx in Hzy.
  - rewrite String.compare_antisym in Hcmp.
    destruct (String.compare x y) eqn:Hxy; try done.
    by rewrite (string_compare_lt_trans z x y) in Hzy.
Qed.

Lemma scalar_lt_asym a b :
  scalar_lt a b = Ok true -> scalar_lt b a = Ok false.
Proof.
  destruct a as [|x|x|x], b as [|y|y|y]; unfold scalar_lt; simpl; try done;
    intros [= Hlt]; f_equal;
    first [ by apply string_ltb_asym | by_order ].
Qed.

Lemma scalar_ge_trans x y z :
  scalar_lt z y = Ok false -> scalar_lt y x = Ok false ->
  scalar_lt z x = Ok false.
Proof.
  destruct x as [|x|x|x], y as [|y|y|y], z as [|z|z|z];
    unfold scalar_lt; simpl; try done;
    intros [= Hzy] [= Hyx]; f_equal;
    first [ by apply (string_geb_trans x y z) | by_order ].
Qed.

Lemma scalar_lt_apart x y c :
  scalar_lt y x = Ok true -> scalar_eq x c = true -> scalar_eq y c = false.
Proof.
  destruct x as [|x|x|x], y as [|y|y|y], c as [|c|c|c];
    unfold scalar_lt, scalar_eq; simpl; try done;
    intros [= Hlt] Heq;
    first [ by_order
          | apply String.eqb_eq in Heq as ->; apply String.eqb_neq;
            intros ->; by rewrite string_ltb_irrefl in Hlt ].
Qed.

Lemma scalar_lt_total keys a b :
  homogeneous keys -> In a keys -> In b keys ->
  exists r, scalar_lt a b = Ok r.
Proof.
  intros [Hnum|Htxt] Ha Hb.
  - rewrite List.Forall_forall in Hnum.
    destruct (Hnum a Ha) as [x Hx], (Hnum b Hb) as [y Hy].
    unfold scalar_lt. rewrite Hx, Hy. by eexists.
  - rewrite List.Forall_forall in Htxt.
    destruct (Htxt a Ha) as [x ->], (Htxt b Hb) as [y ->].
    by eexists.
Qed.
End ScalarOrder.

Section Sorting.
Context {A : Type} (key : A -> value).

Local Abbreviation R := (fun a b => not_after (key a) (key b)).

Lemma insert_sorted_perm x l r :
  insert_sorted key x l = Ok r -> Permutation (x :: l) r.
Proof.
  revert r. induction l as [|y l IH]; intros r; simpl.
  - by intros [= <-].
  - destruct (py_lt (key y) (key x)) as [[]|]; simpl; try done.
    + destruct (insert_sorted key x l) as [r'|]; simpl; [|done].
      intros [= <-]. rewrite perm_swap. constructor. by apply IH.
    + by intros [= <-].
Qed.

Lemma sorted_perm l r : sorted key l = Ok r -> Permutation l r.
Proof.
  revert r. induction l as [|x l IH]; intros r; simpl.
  - by intros [= <-].
  - destruct (sorted key l) as [s|]; simpl; [|done].
    intros Hins. apply insert_sorted_perm in Hins.
    rewrite <- Hins. constructor. by apply IH.
Qed.

Lemma insert_sorted_sorted x l r :
  Forall (scalar_keyed key) (x :: l) ->
  StronglySorted R l ->
  insert_sorted key x l = Ok r ->
  StronglySorted R r.
Proof.
  revert r. induction l as [|y l IH]; intros r Hkeys Hsorted; simpl.
  - intros [= <-]. repeat constructor.
  - inversion Hkeys as [|? ? Hsx Hrest]; subst.
    inversion Hrest as [|? ? Hsy Hl]; subst.
    destruct Hsx as [kx Hx] eqn:Ex, Hsy as [ky Hy] eqn:Ey.
    apply StronglySorted_inv in Hsorted as [Hsl Hyl].
    destruct (py_lt (key y) (key x)) as [[]|] eqn:Hlt; simpl; try done.
    + destruct (insert_sorted key x l) as [r'|] eqn:Hins; simpl; [|done].
      intros [= <-]. constructor.
      * apply IH; [by constructor|done|done].
      * apply insert_sorted_perm in Hins.
        apply (Permutation_Forall Hins). constructor; [|done].
        unfold not_after. rewrite Hx, Hy in *. simpl in *.
        by apply scalar_lt_asym.
    + intros [= <-]. constructor; [by constructor|].
      constructor; [done|].
      rewrite List.Forall_forall in Hyl, Hl |- *.
      intros z Hz. destruct (Hl z Hz) as [kz Hkz].
      specialize (Hyl z Hz). unfold not_after in *.
      rewrite Hx, Hy, Hkz in *. simpl in *.
      by apply (scalar_ge_trans kx ky kz).
Qed.

Lemma sorted_sorted l r :
  Forall (scalar_keyed key) l -> sorted key l = Ok r -> StronglySorted R r.
Proof.
  revert r. induction l as [|x l IH]; intros r Hkeys; simpl.
  - intros [= <-]. constructor.
  - inversion Hkeys as [|? ? Hx Hl]; subst.
    destruct (sorted key l) as [s|] eqn:Hs; simpl; [|done].
    apply insert_sorted_sorted; [|by apply IH].
    constructor; [done|]. by apply (Permutation_Forall (sorted_perm _ _ Hs)).
Qed.

Lemma insert_sorted_filter c x l r :
  Forall (scalar_keyed key) (x :: l) ->
  insert_sorted key x l = Ok r ->
  List.filter (fun a => py_eq (key a) c) r =
  List.filter (fun a => py_eq (key a) c) (x :: l).
Proof.
  revert r. induction l as [|y l IH]; intros r Hkeys; simpl.
  - by intros [= <-].
  - inversion Hkeys as [|? ? Hsx Hrest]; subst.
    inversion Hrest as [|? ? Hsy Hl]; subst.
    destruct Hsx as [kx Hx] eqn:Ex, Hsy as [ky Hy] eqn:Ey.
    destruct (py_lt (key y) (key x)) as [[]|] eqn:Hlt; simpl; try done.
    + destruct (insert_sorted key x l) as [r'|] eqn:Hins; simpl; [|done].
      intros [= <-]. simpl.
      rewrite (IH r') by (done || by constructor). simpl.
      destruct (py_eq (key x) c) eqn:Hxc; [|done].
      rewrite Hx, Hy in *. destruct c as [kc| |]; simpl in *; try done.
      by rewrite (scalar_lt_apart kx ky kc).
    + by intros [= <-].
Qed.

Lemma sorted_filter c l r :
  Forall (scalar_keyed key) l ->
  sorted key l = Ok r ->
  List.filter (fun a => py_eq (key a) c) r =
  List.filter (fun a => py_eq (key a) c) l.
Proof.
  revert r. induction l as [|x l IH]; intros r Hkeys; simpl.
  - by intros [= <-].
  - inversion Hkeys as [|? ? Hx Hl]; subst.
    destruct (sorted key l) as [s|] eqn:Hs; simpl; [|done].
    intros Hins. rewrite (insert_sorted_filter c x s r); [| |done].
    + simpl. by rewrite (IH s).
    + constructor; [done|]. by apply (Permutation_Forall (sorted_perm _ _ Hs)).
Qed.

(** [sorted] is a stable sort on lists with scalar keys. *)
Lemma sorted_stably l r :
  Forall (scalar_keyed key) l -> sorted key l = Ok r -> stably_sorted key l r.
Proof.
  intros Hkeys Hs. split; [by apply sorted_perm|]. split.
  - by apply (sorted_sorted l).
  - intros c. by apply sorted_filter.
Qed.

Lemma insert_sorted_total x l :
  (forall y, In y l -> exists b, py_lt (key y) (key x) = Ok b) ->
  exists r, insert_sorted key x l = Ok r.
Proof.
  induction l as [|y l IH]; intros Hcmp; simpl; [by eexists|].
  destruct (Hcmp y) as [[] ->]; [by left| |]; simpl; [|by eexists].
  destruct IH as [r ->]; [|by eexists].
  intros z Hz. apply Hcmp. by right.
Qed.

(** The sort returns when every key is a number, or every key is text. *)
Lemma sorted_total keys l :
  map key l = map VScalar keys -> homogeneous keys ->
  exists r, sorted key l = Ok r.
Proof.
  intros Hkeys Hhom.
  assert (forall x y, In x l -> In y l -> exists b, py_lt (key y) (key x) = Ok b)
    as Hcmp.
  { intros x y Hx Hy.
    assert (forall z, In z l -> exists k, key z = VScalar k /\ In k keys) as Hin.
    { intros z Hz. apply (in_map key) in Hz. rewrite Hkeys in Hz.
      apply in_map_iff in Hz as (k & Hk & Hkin). by exists k. }
    destruct (Hin x Hx) as (kx & -> & Hkx), (Hin y Hy) as (ky & -> & Hky).
    simpl. by apply (scalar_lt_total keys). }
  clear Hkeys Hhom. induction l as [|x l IH]; simpl; [by eexists|].
  destruct IH as [s Hs].
  { intros a b Ha Hb. apply Hcmp; by right. }
  rewrite Hs. simpl. apply insert_sorted_total.
  intros y Hy. apply Hcmp; [by left|].
  right. apply (Permutation_in _ (Permutation_sym (sorted_perm _ _ Hs)) Hy).
Qed.
End Sorting.

(** ** Lists of records *)

Section Lists.
Context `{Env}.

Lemma Response_init_inv name data config errors kwargs st r st' :
  Response.init name data config errors kwargs st = Ok (r, st') ->
  resp_code r = name /\ resp_raw r = data /\ resp_errors r = errors.
Proof.
  unfold Response.init, Response.__init__. intros Hrun. invert_run. done.
Qed.

Lemma Response_for_each_codes config errors kwargs items st declared st' :
  for_each (fun kv => Response.init (VScalar (fst kv)) (snd kv) config errors kwargs)
           items st = Ok (declared, st') ->
  map resp_code declared = map (fun kv => VScalar (fst kv)) items.
Proof.
  revert st declared. induction items as [|kv items IH]; intros st declared; simpl.
  - intros Hrun. invert_run. done.
  - intros Hrun. invert_run.
    apply Response_init_inv in Ha as (Hcode & _ & _).
    simpl. rewrite Hcode. f_equal. by eapply IH.
Qed.

(** C6: [Response.init_list] returns the normalised responses sorted
    ascending by status code, responses of equal code in the order they
    were declared.  With [declared] the responses normalised in the order
    of the mapping, whatever [init_list] returns is a permutation of
    [declared], sorted by [code], that keeps the declaration order among
    equal codes; and it does return when the codes are all numbers or all
    text. *)
Theorem responses_sorted_by_code data config errors kwargs st items declared st' :
  iteritems data = Ok items ->
  for_each (fun kv => Response.init (VScalar (fst kv)) (snd kv) config errors kwargs)
           items st = Ok (declared, st') ->
  map resp_code declared = map (fun kv => VScalar (fst kv)) items /\
  (forall rs st'',
     Response.init_list data config errors kwargs st = Ok (rs, st'') ->
     st'' = st' /\ stably_sorted resp_code declared rs) /\
  (homogeneous (map fst items) ->
   exists rs, Response.init_list data config errors kwargs st = Ok (rs, st')).
Proof.
  intros Hitems Hdeclared.
  pose proof (Response_for_each_codes _ _ _ _ _ _ _ Hdeclared) as Hcodes.
  split; [done|].
  unfold Response.init_list. rewrite Hitems.
  unfold bind. simpl. rewrite Hdeclared. split.
  - intros rs st'' Hsort. apply lift_ok in Hsort as [Hsort ->].
    split; [done|]. apply sorted_stably; [|done].
    apply List.Forall_forall. intros r Hr.
    apply (in_map resp_code) in Hr. rewrite Hcodes in Hr.
    apply in_map_iff in Hr as (kv & Hkv & _). by exists (fst kv).
  - intros Hhom.
    destruct (sorted_total resp_code (map fst items) declared) as [rs Hrs].
    + by rewrite Hcodes, map_map.
    + done.
    + exists rs. unfold lift. by rewrite Hrs.
Qed.

(** C5: what the three list builders return for an empty mapping.
    [BaseParameter.init_list] returns [None]; [Body.init_list] and
    [Response.init_list] return the empty list. *)
Theorem empty_mapping_lists cls config errors kwargs st :
  BaseParameter.init_list cls (VDict []) config errors kwargs st = Ok (None, st) /\
  Body.init_list (VDict []) config errors kwargs st = Ok (Some [], st) /\
  Response.init_list (VDict []) config errors kwargs st = Ok ([], st).
Proof. done. Qed.
End Lists.

(** The responses "404", "200", "500" of the example come back as "200",
    "404", "500". *)
Lemma responses_sorted_by_code_witness :
  iteritems three_responses =
    Ok [(SStr "404", VDict []); (SStr "200", VDict []); (SStr "500", VDict [])] /\
  exists declared rs,
    for_each (fun kv => @Response.init lenient (VScalar (fst kv)) (snd kv)
                          (VDict []) (Alloc 0) [])
      [(SStr "404", VDict []); (SStr "200", VDict []); (SStr "500", VDict [])]
      empty_store = Ok (declared, empty_store) /\
    map resp_code declared = [VStr "404"; VStr "200"; VStr "500"] /\
    @Response.init_list lenient three_responses (VDict []) (Alloc 0) [] empty_store =
      Ok (rs, empty_store) /\
    map resp_code rs = [VStr "200"; VStr "404"; VStr "500"] /\
    stably_sorted resp_code declared rs.
Proof.
  split; [reflexivity|].
  eexists. eexists.
  split; [reflexivity|].
  destruct (@responses_sorted_by_code lenient three_responses (VDict []) (Alloc 0)
              [] empty_store _ _ empty_store eq_refl eq_refl)
    as (Hcodes & Hsorted & _).
  split; [exact Hcodes|].
  split; [reflexivity|].
  split; [reflexivity|].
  apply (Hsorted _ empty_store). reflexivity.
Defined.

(** C8: the errors list of the caller does not reach the nested records.
    [Response.init], called with the list [Alloc 0], builds its headers and
    bodies with the default lists of [init_list]; the diagnostic of the
    nested header is appended to that default list and the caller's list
    stays empty.  [SecurityScheme.from_file] does the same with the list of
    the root. *)
Theorem nested_records_miss_the_callers_errors :
  match @Response.init (checking false) (VInt 200) response_with_header
          (VDict []) (Alloc 0) [] empty_store with
  | Ok (r, st) =>
      resp_errors r = Alloc 0 /\
      option_map (map errors_of) (resp_headers r) =
        Some [DefaultArg BaseParameter_init_list] /\
      option_map (map errors_of) (resp_body r) =
        Some [DefaultArg Body_init_list] /\
      st (Alloc 0) = [] /\
      st (DefaultArg BaseParameter_init_list) = ["min_length"]
  | Raise _ => False
  end /\
  match @SecurityScheme.from_file (checking false) document_with_scheme
          (RootNode (VDict []) (Alloc 1)) empty_store with
  | Ok (Some [scheme], st) =>
      ss_errors scheme = Alloc 1 /\
      match ss_attached scheme !! "headers" with
      | Some (Instances (Some [h])) =>
          errors_of h = DefaultArg BaseParameter_init_list
      | _ => False
      end /\
      st (Alloc 1) = [] /\
      st (DefaultArg BaseParameter_init_list) = ["min_length"]
  | _ => False
  end.
Proof. vm_compute. repeat split. Qed.

(** ** The description accessor *)

(** C10: the description accessor collapses empty text to absence.  For a
    record of any of the four classes whose [desc] is [v]: when [v] is
    falsy, as [None] and the empty string are, [description] returns
    [None]; otherwise it returns a [Content] whose [raw] is [v] itself. *)
Theorem description_collapses_empty_text (v : value) (self : instance)
    (resp : response) (scheme : security_scheme) :
  attr self "desc" = Ok v ->
  resp_desc resp = v ->
  ss_desc scheme = v ->
  truthy VNone = false /\ truthy (VStr "") = false /\
  (truthy v = false ->
     BaseParameter.description self = Ok None /\
     Header.description self = Ok None /\
     Response.description resp = None /\
     SecurityScheme.description scheme = None) /\
  (truthy v = true ->
     exists c,
       Content.raw c = v /\
       BaseParameter.description self = Ok (Some c) /\
       Header.description self = Ok (Some c) /\
       Response.description resp = Some c /\
       SecurityScheme.description scheme = Some c).
Proof.
  intros Hself Hresp Hscheme.
  unfold BaseParameter.description, Header.description, Response.description,
    SecurityScheme.description, describe.
  rewrite Hself, Hresp, Hscheme. simpl.
  split; [done|]. split; [done|]. split.
  - by intros ->.
  - intros ->. by exists (Content_ v).
Qed.

(** ** The claims on concrete declarations *)

(** A URI parameter and a query parameter, both declared with no body. *)
Lemma required_defaults_by_kind_witness :
  declares VNone "required" = false /\
  exists uri query,
    @BaseParameter.init lenient URIParameter (VStr "id") VNone (VDict [])
      (Alloc 0) [] empty_store = Ok (uri, empty_store) /\
    @BaseParameter.init lenient QueryParameter (VStr "limit") VNone (VDict [])
      (Alloc 0) [] empty_store = Ok (query, empty_store) /\
    attrs uri !! "required" = Some (VBool true) /\
    attrs query !! "required" = Some (VBool false).
Proof.
  split; [reflexivity|].
  set (uri := Instance (Named URIParameter)
                (named_arguments URIParameter (VStr "id") (SStr "id") VNone
                   (VDict []) []) (Alloc 0)).
  set (query := Instance (Named QueryParameter)
                  (named_arguments QueryParameter (VStr "limit") (SStr "limit")
                     VNone (VDict []) []) (Alloc 0)).
  assert (@BaseParameter.init lenient URIParameter (VStr "id") VNone (VDict [])
            (Alloc 0) [] empty_store = Ok (uri, empty_store)) as Huri
    by (vm_compute; reflexivity).
  assert (@BaseParameter.init lenient QueryParameter (VStr "limit") VNone
            (VDict []) (Alloc 0) [] empty_store = Ok (query, empty_store))
    as Hquery by (vm_compute; reflexivity).
  exists uri, query.
  split; [exact Huri|]. split; [exact Hquery|].
  split.
  - exact (proj2 (@required_defaults_by_kind lenient URIParameter (VStr "id")
                    VNone (VDict []) (Alloc 0) [] empty_store uri empty_store
                    eq_refl Huri)).
  - exact (proj2 (@required_defaults_by_kind lenient QueryParameter
                    (VStr "limit") VNone (VDict []) (Alloc 0) [] empty_store
                    query empty_store eq_refl Hquery)).
Defined.

(** A typed parameter, a JSON body with a schema and a described response. *)
Lemma raw_is_the_declaration_witness :
  exists r b resp,
    @BaseParameter.init lenient QueryParameter (VStr "limit")
      (VDict [(SStr "type", VStr "integer")]) (VDict []) (Alloc 0) []
      empty_store = Ok (r, empty_store) /\
    @Body.init lenient (VStr "application/json")
      (VDict [(SStr "schema", VStr "{}")]) (VDict []) (Alloc 0) []
      empty_store = Ok (b, empty_store) /\
    @Response.init lenient (VInt 200)
      (VDict [(SStr "description", VStr "OK")]) (VDict []) (Alloc 0) []
      empty_store = Ok (resp, empty_store) /\
    attrs r !! "raw" =
      Some (VDict [(SStr "limit", VDict [(SStr "type", VStr "integer")])]) /\
    attrs b !! "raw" = Some (VDict [(SStr "schema", VStr "{}")]) /\
    resp_raw resp = VDict [(SStr "description", VStr "OK")].
Proof.
  set (r := Instance (Named QueryParameter)
              (named_arguments QueryParameter (VStr "limit") (SStr "limit")
                 (VDict [(SStr "type", VStr "integer")]) (VDict []) [])
              (Alloc 0)).
  set (b := Instance Body
              (list_to_map
                 [("mime_type", VStr "application/json");
                  ("raw", VDict [(SStr "schema", VStr "{}")]);
                  ("schema", VStr "{}");
                  ("example", VNone);
                  ("form_params", VNone);
                  ("config", VDict [])])
              (Alloc 0)).
  set (resp := Response_ (VInt 200) (VDict [(SStr "description", VStr "OK")])
                 (VStr "OK") None (Some []) (VDict []) (Alloc 0) VNone).
  assert (@BaseParameter.init lenient QueryParameter (VStr "limit")
            (VDict [(SStr "type", VStr "integer")]) (VDict []) (Alloc 0) []
            empty_store = Ok (r, empty_store)) as Hr
    by (vm_compute; reflexivity).
  assert (@Body.init lenient (VStr "application/json")
            (VDict [(SStr "schema", VStr "{}")]) (VDict []) (Alloc 0) []
            empty_store = Ok (b, empty_store)) as Hb
    by (vm_compute; reflexivity).
  assert (@Response.init lenient (VInt 200)
            (VDict [(SStr "description", VStr "OK")]) (VDict []) (Alloc 0) []
            empty_store = Ok (resp, empty_store)) as Hresp
    by (vm_compute; reflexivity).
  exists r, b, resp.
  split; [exact Hr|]. split; [exact Hb|]. split; [exact Hresp|].
  destruct (@raw_is_the_declaration lenient _ _ _ _ _ _ _ _ _
              _ _ _ _ _ _ _ _ _ _ _ _ _ _ _ _ Hr Hb Hresp)
    as ((key & Hkey & Hraw) & Hbraw & Hrraw).
  split; [|split; [exact Hbraw|exact Hrraw]].
  injection Hkey as <-. exact Hraw.
Defined.

(** A header declared as [None], under the strict validators. *)
Lemma normalisation_tolerates_missing_declaration_witness :
  Header <> BaseParameter /\
  (VNone = VNone \/ VNone = VDict []) /\
  is_dict (VDict []) = true /\
  (forall inst a d,
     @string_type_parameter (checking true) inst a VNone <> Reject d) /\
  (forall inst a d,
     @integer_number_type_parameter (checking true) inst a VNone <> Reject d) /\
  (forall inst d,
     getattr inst "config" VNone = VDict [] ->
     @header_type (checking true) inst "type" (VStr "string") <> Reject d) /\
  exists r st',
    @BaseParameter.init (checking true) Header (VStr "Accept") VNone (VDict [])
      (Alloc 0) [] empty_store = Ok (r, st') /\
    attrs r !! "type" = Some (VStr "string") /\
    attrs r !! "repeat" = Some (VBool false) /\
    attrs r !! "display_name" = Some (VStr "Accept") /\
    (forall n, In n optional_fields -> attrs r !! n = Some VNone).
Proof.
  assert (Header <> BaseParameter) as H1 by discriminate.
  assert (VNone = VNone \/ VNone = VDict []) as H2 by (left; reflexivity).
  assert (is_dict (VDict []) = true) as H3 by reflexivity.
  assert (forall inst a d,
            @string_type_parameter (checking true) inst a VNone <> Reject d) as H4
    by (intros inst a d; discriminate).
  assert (forall inst a d,
            @integer_number_type_parameter (checking true) inst a VNone <> Reject d)
    as H5 by (intros inst a d; discriminate).
  assert (forall inst d,
            getattr inst "config" VNone = VDict [] ->
            @header_type (checking true) inst "type" (VStr "string") <> Reject d)
    as H6 by (intros inst d _; discriminate).
  split; [exact H1|]. split; [exact H2|]. split; [exact H3|].
  split; [exact H4|]. split; [exact H5|]. split; [exact H6|].
  exact (proj2 (@normalisation_tolerates_missing_declaration (checking true)
                  Header (VStr "Accept") (SStr "Accept") VNone (VDict [])
                  (Alloc 0) [] empty_store H1 H2 eq_refl H3 H4 H5 H6)).
Defined.

(** A parameter described by the empty string and a response described by
    a text. *)
Lemma description_collapses_empty_text_witness :
  (BaseParameter.description (record (Named QueryParameter) [("desc", VStr "")]) =
     Ok None /\
   Response.description
     (Response_ (VInt 200) (VDict []) (VStr "") None None (VDict []) (Alloc 0) VNone) =
     None) /\
  exists c,
    Content.raw c = VStr "page size" /\
    BaseParameter.description limit_trait = Ok (Some c).
Proof.
  split.
  - destruct (description_collapses_empty_text (VStr "")
                (record (Named QueryParameter) [("desc", VStr "")])
                (Response_ (VInt 200) (VDict []) (VStr "") None None (VDict [])
                   (Alloc 0) VNone)
                (SecurityScheme_ (VStr "basic") (VDict []) VNone (VDict [])
                   (VStr "") VNone (VDict []) (Alloc 0) ∅)
                eq_refl eq_refl eq_refl)
      as (_ & _ & Hfalsy & _).
    destruct (Hfalsy eq_refl) as (Hb & _ & Hr & _).
    split; [exact Hb|exact Hr].
  - destruct (description_collapses_empty_text (VStr "page size") limit_trait
                (Response_ (VInt 200) (VDict []) (VStr "page size") None None
                   (VDict []) (Alloc 0) VNone)
                (SecurityScheme_ (VStr "basic") (VDict []) VNone (VDict [])
                   (VStr "page size") VNone (VDict []) (Alloc 0) ∅)
                eq_refl eq_refl eq_refl)
      as (_ & _ & _ & Htruthy).
    destruct (Htruthy eq_refl) as (c & Hraw & Hb & _).
    exists c. split; [exact Hraw|exact Hb].
Defined.


(** ** Further properties: the list builders *)

Section ListShape.
Context `{Env}.

Lemma for_each_Forall2 {A B} (f : A -> M B) (R : A -> B -> Prop) :
  (forall x st y st', f x st = Ok (y, st') -> R x y) ->
  forall l st ys st',
    for_each f l st = Ok (ys, st') -> Forall2 R l ys.
Proof.
  intros Hf. induction l as [|x l IH]; intros st ys st' Hrun; simpl in Hrun.
  - invert_run. constructor.
  - invert_run. constructor; [by eapply Hf|by eapply IH].
Qed.

Lemma run_checks_inv inst cs st u st' :
  run_checks inst cs st = Ok (u, st') -> Forall (passes inst) cs.
Proof.
  revert st. induction cs as [|[a c] cs IH]; intros st Hrun; [constructor|].
  simpl in Hrun. apply bind_ok in Hrun as (u1 & st1 & Hc & Hrun).
  constructor; [|by eapply IH].
  unfold passes, run_check in *. simpl in *.
  destruct c as [|f].
  - unfold instance_of_dict in Hc. by destruct (is_dict _).
  - intros d Hd. by rewrite Hd in Hc.
Qed.

Lemma Body_init_inv name data config errors kwargs st r st' :
  Body.init name data config errors kwargs st = Ok (r, st') ->
  is_dict data = true /\ is_dict config = true /\
  r = Instance Body
        (list_to_map
           [("mime_type", name);
            ("raw", data);
            ("schema", load_schema (field data "schema" VNone));
            ("example", load_schema (field data "example" VNone));
            ("form_params", field data "formParameters" VNone);
            ("config", config)])
        errors.
Proof.
  unfold Body.init. rewrite !get_field. cbn [bind lift].
  unfold Body.__init__. intros Hrun.
  apply bind_ok in Hrun as (u & st1 & Hchecks & Hret).
  apply ret_ok in Hret as [-> ->].
  apply run_checks_inv in Hchecks.
  unfold Body.validators in Hchecks.
  repeat match goal with
    | Hf : Forall _ (_ :: _) |- _ =>
        let Hp := fresh "Hp" in
        apply List.Forall_cons_iff in Hf as [Hp Hf]
    end.
  unfold passes in *. simpl in *. done.
Qed.

(** [BaseParameter.init_list] builds one record per entry of the mapping,
    in the order of the mapping: each is named after its key, keeps its
    own entry as [raw], and holds the [config] and the [errors] list that
    were passed in.  The result is [None] exactly for the empty mapping. *)
Theorem init_list_one_record_per_entry cls data config errors kwargs st res st' :
  BaseParameter.init_list cls data config errors kwargs st = Ok (res, st') ->
  exists items objects,
    data = VDict items /\
    res = or_None objects /\
    (res = None <-> items = []) /\
    Forall2 (fun kv o =>
               class_of o = Named cls /\
               attrs o !! "name" = Some (VScalar (fst kv)) /\
               attrs o !! "raw" = Some (VDict [kv]) /\
               attrs o !! "config" = Some config /\
               errors_of o = errors)
            items objects.
Proof.
  unfold BaseParameter.init_list. intros Hrun.
  apply bind_ok in Hrun as (items & sa & Hitems & Hrun).
  apply lift_ok in Hitems as [Hitems ->].
  apply bind_ok in Hrun as (objects & sb & Hobjects & Hrun).
  apply ret_ok in Hrun as [-> ->].
  destruct data as [s|l|d]; try discriminate.
  injection Hitems as ->.
  assert (Forall2 (fun kv o =>
                     class_of o = Named cls /\
                     attrs o !! "name" = Some (VScalar (fst kv)) /\
                     attrs o !! "raw" = Some (VDict [kv]) /\
                     attrs o !! "config" = Some config /\
                     errors_of o = errors) items objects) as Hall.
  { eapply for_each_Forall2; [|exact Hobjects].
    intros [k v] s1 o s2 Hinit. simpl in *.
    apply init_inv in Hinit as (key & [= <-] & Hcls & ->).
    simpl. repeat split; by destruct cls. }
  exists items, objects. split; [done|]. split; [done|]. split; [|done].
  destruct Hall; simpl; split; done.
Qed.


(** [Body.init_list] builds one body per entry of the mapping, in order:
    each has the key as [mime_type], its declaration as [raw], and the
    [config] and [errors] passed in.  It always returns a list, and every
    declaration it accepted is a mapping. *)
Theorem Body_init_list_one_body_per_entry data config errors kwargs st res st' :
  Body.init_list data config errors kwargs st = Ok (res, st') ->
  exists items bodies,
    data = VDict items /\
    res = Some bodies /\
    Forall2 (fun kv b =>
               class_of b = Body /\
               attrs b !! "mime_type" = Some (VScalar (fst kv)) /\
               attrs b !! "raw" = Some (snd kv) /\
               is_dict (snd kv) = true /\
               attrs b !! "config" = Some config /\
               errors_of b = errors)
            items bodies.
Proof.
  unfold Body.init_list. intros Hrun.
  apply bind_ok in Hrun as (items & sa & Hitems & Hrun).
  apply lift_ok in Hitems as [Hitems ->].
  apply bind_ok in Hrun as (bodies & sb & Hbodies & Hrun).
  apply ret_ok in Hrun as [-> ->].
  destruct data as [s|l|d]; try discriminate.
  injection Hitems as ->.
  exists items, bodies. split; [done|]. split; [done|].
  eapply for_each_Forall2; [|exact Hbodies].
  intros [k v] s1 b s2 Hinit. simpl in *.
  apply Body_init_inv in Hinit as (Hd & _ & ->). done.
Qed.


(** A section that is not a mapping, [None] for an absent one included,
    makes each of the three list builders raise [AttributeError]: none of
    them returns [None] for it. *)
Theorem init_list_needs_a_mapping cls data config errors kwargs st :
  is_dict data = false ->
  BaseParameter.init_list cls data config errors kwargs st = Raise AttributeError /\
  Body.init_list data config errors kwargs st = Raise AttributeError /\
  Response.init_list data config errors kwargs st = Raise AttributeError.
Proof.
  intros Hdata. by destruct data.
Qed.
End ListShape.

Lemma init_list_one_record_per_entry_witness :
  exists res,
    @BaseParameter.init_list lenient QueryParameter
      (VDict [(SStr "offset", VNone); (SStr "limit", VDict [])]) (VDict [])
      (Alloc 0) [] empty_store = Ok (res, empty_store) /\
    exists objects,
      res = Some objects /\
      map (fun o => attrs o !! "name") objects =
        [Some (VStr "offset"); Some (VStr "limit")] /\
      map errors_of objects = [Alloc 0; Alloc 0].
Proof.
  assert (exists res,
            @BaseParameter.init_list lenient QueryParameter
              (VDict [(SStr "offset", VNone); (SStr "limit", VDict [])])
              (VDict []) (Alloc 0) [] empty_store = Ok (res, empty_store))
    as [res Hrun] by (eexists; vm_compute; reflexivity).
  exists res. split; [exact Hrun|].
  destruct (@init_list_one_record_per_entry lenient _ _ _ _ _ _ _ _ Hrun)
    as (items & objects & [= <-] & -> & _ & Hall).
  exists objects.
  inversion Hall as [|kv1 o1 l1 os1 (_ & Hn1 & _ & _ & He1) Hall1]; subst.
  inversion Hall1 as [|kv2 o2 l2 os2 (_ & Hn2 & _ & _ & He2) Hall2]; subst.
  inversion Hall2; subst.
  simpl in *. rewrite Hn1, Hn2, He1, He2. done.
Defined.

Lemma Body_init_list_one_body_per_entry_witness :
  exists bodies,
    @Body.init_list lenient
      (VDict [(SStr "application/json", VDict []); (SStr "text/xml", VDict [])])
      (VDict []) (Alloc 0) [] empty_store = Ok (Some bodies, empty_store) /\
    map (fun b => attrs b !! "mime_type") bodies =
      [Some (VStr "application/json"); Some (VStr "text/xml")].
Proof.
  assert (exists res,
            @Body.init_list lenient
              (VDict [(SStr "application/json", VDict []);
                      (SStr "text/xml", VDict [])])
              (VDict []) (Alloc 0) [] empty_store = Ok (res, empty_store))
    as [res Hrun] by (eexists; vm_compute; reflexivity).
  destruct (@Body_init_list_one_body_per_entry lenient _ _ _ _ _ _ _ Hrun)
    as (items & bodies & [= <-] & -> & Hall).
  exists bodies. split; [exact Hrun|].
  inversion Hall as [|kv1 o1 l1 os1 (_ & Hn1 & _) Hall1]; subst.
  inversion Hall1 as [|kv2 o2 l2 os2 (_ & Hn2 & _) Hall2]; subst.
  inversion Hall2; subst.
  simpl in *. rewrite Hn1, Hn2. done.
Defined.

Lemma init_list_needs_a_mapping_witness :
  is_dict VNone = false /\
  @BaseParameter.init_list lenient Header VNone (VDict []) (Alloc 0) []
    empty_store = Raise AttributeError /\
  @Body.init_list lenient VNone (VDict []) (Alloc 0) [] empty_store =
    Raise AttributeError /\
  @Response.init_list lenient VNone (VDict []) (Alloc 0) [] empty_store =
    Raise AttributeError.
Proof.
  split; [reflexivity|].
  exact (@init_list_needs_a_mapping lenient Header VNone (VDict []) (Alloc 0) []
           empty_store eq_refl).
Defined.

(** ** Further properties: normalisation of one declaration *)

Section Fields.
Context `{Env}.

Lemma required_defaults_by_kind_aux cls name data config errors kwargs st r st' :
  BaseParameter.init cls name data config errors kwargs st = Ok (r, st') ->
  declares data "required" = false ->
  attrs r !! "required" =
  Some (VBool (if decide (cls = URIParameter) then true else false)).
Proof.
  intros Hrun Hd. apply init_inv in Hrun as (k & -> & Hcls & ->).
  simpl. rewrite named_arguments_required. by rewrite field_undeclared.
Qed.

Lemma named_arguments_lookup cls name k data config kwargs key a :
  In (key, a) declared_keys ->
  named_arguments cls name k data config kwargs !! a =
  Some (field data key (key_default cls name key)).
Proof.
  intros Hin. simpl in Hin.
  repeat (destruct Hin as [[= <- <-]|Hin]; [by destruct cls|]).
  destruct Hin.
Qed.

(** A field that the declaration leaves out gets its default whatever else
    is declared: [display_name] is the name, [type] is "string", [repeat]
    is false, and the optional fields are [None]. *)
Theorem undeclared_fields_get_defaults cls name data config errors kwargs st r st' :
  BaseParameter.init cls name data config errors kwargs st = Ok (r, st') ->
  (declares data "displayName" = false -> attrs r !! "display_name" = Some name) /\
  (declares data "type" = false -> attrs r !! "type" = Some (VStr "string")) /\
  (declares data "repeat" = false -> attrs r !! "repeat" = Some (VBool false)) /\
  (forall key a, In (key, a) optional_keys -> declares data key = false ->
                 attrs r !! a = Some VNone).
Proof.
  intros Hrun. apply init_inv in Hrun as (k & -> & Hcls & ->). simpl.
  split; [|split; [|split]].
  - intros Hd.
    rewrite (named_arguments_lookup _ _ _ _ _ _ "displayName") by (simpl; tauto).
    by rewrite (field_undeclared _ _ _ Hd).
  - intros Hd.
    rewrite (named_arguments_lookup _ _ _ _ _ _ "type") by (simpl; tauto).
    by rewrite (field_undeclared _ _ _ Hd).
  - intros Hd.
    rewrite (named_arguments_lookup _ _ _ _ _ _ "repeat") by (simpl; tauto).
    by rewrite (field_undeclared _ _ _ Hd).
  - intros key a Hin Hd.
    rewrite (named_arguments_lookup _ _ _ _ _ _ key)
      by (unfold declared_keys; apply in_or_app; by left).
    rewrite (field_undeclared _ _ _ Hd).
    simpl in Hin.
    repeat (destruct Hin as [[= <- <-]|Hin]; [done|]).
    destruct Hin.
Qed.

(** A field that the declaration does have is stored as it is, under the
    attribute [init] renames it to, and no default replaces it: an explicit
    [None] stays [None]. *)
Theorem declared_fields_are_kept cls name d config errors kwargs st r st' key a v :
  BaseParameter.init cls name (VDict d) config errors kwargs st = Ok (r, st') ->
  In (key, a) declared_keys ->
  dict_find (SStr key) d = Some v ->
  attrs r !! a = Some v.
Proof.
  intros Hrun Hin Hfind. apply init_inv in Hrun as (k & -> & Hcls & ->).
  simpl. rewrite (named_arguments_lookup _ _ _ _ _ _ key) by done.
  unfold field. by rewrite Hfind.
Qed.

(** Only [Header] records carry [method], and it is the [method] keyword
    given to [init], [None] without one; the other classes have no such
    attribute. *)
Theorem method_is_the_keyword cls name data config errors kwargs st r st' :
  BaseParameter.init cls name data config errors kwargs st = Ok (r, st') ->
  attrs r !! "method" =
  if decide (cls = Header)
  then Some (match dict_find (SStr "method") kwargs with
             | Some m => m
             | None => VNone
             end)
  else None.
Proof.
  intros Hrun. apply init_inv in Hrun as (k & -> & Hcls & ->).
  by destruct cls.
Qed.

(** [Body.init] returns no record for a declaration that is not a mapping,
    and [Response.init] raises [AttributeError] on it: unlike the named
    parameters, bodies and responses cannot be declared empty-handed. *)
Theorem Body_and_Response_need_a_mapping name data config errors kwargs st :
  is_dict data = false ->
  (forall r st', Body.init name data config errors kwargs st <> Ok (r, st')) /\
  Response.init name data config errors kwargs st = Raise AttributeError.
Proof.
  intros Hdata. split.
  - intros r st' Hrun. apply Body_init_inv in Hrun as (Hd & _). congruence.
  - by destruct data.
Qed.

(** The description of a normalised record is the declared description:
    [description] never raises on a record [init] returned, and answers
    with the text under the key "description" unless that is missing or
    falsy; so does the description of a response. *)
Theorem description_of_normalised_record cls name data config errors kwargs st r st'
    rname rdata rconfig rerrors rkwargs rst resp rst' :
  BaseParameter.init cls name data config errors kwargs st = Ok (r, st') ->
  Response.init rname rdata rconfig rerrors rkwargs rst = Ok (resp, rst') ->
  BaseParameter.description r =
    Ok (if truthy (field data "description" VNone)
        then Some (Content_ (field data "description" VNone)) else None) /\
  Header.description r = BaseParameter.description r /\
  Response.description resp =
    (if truthy (field rdata "description" VNone)
     then Some (Content_ (field rdata "description" VNone)) else None).
Proof.
  intros Hrun Hresp. apply init_inv in Hrun as (k & -> & Hcls & ->).
  split; [|split; [done|]].
  - unfold BaseParameter.description, attr, describe. by destruct cls.
  - unfold Response.init in Hresp.
    apply bind_ok in Hresp as (desc & s1 & Hdesc & Hresp).
    apply lift_ok in Hdesc as [Hdesc ->].
    unfold Response.__init__ in Hresp. invert_run.
    unfold Response.description, describe. simpl.
    destruct rdata as [s|l|d]; try discriminate.
    simpl in *. by injection Hdesc as <-.
Qed.

(** A record fresh from [init] never inherits [type], [repeat] or
    [required]: unless the declaration sets them to [None] itself, [init]
    has stored a default, and the merge takes it for a local value. *)
Theorem defaults_shadow_inheritance cls name data config errors kwargs st r st'
    (ancestors : list instance) :
  BaseParameter.init cls name data config errors kwargs st = Ok (r, st') ->
  exists r',
    BaseParameter._inherit_type_properties r ancestors = Ok r' /\
    (declares data "type" = false -> getattr r' "type" VNone = VStr "string") /\
    (declares data "repeat" = false -> getattr r' "repeat" VNone = VBool false) /\
    (declares data "required" = false ->
     getattr r' "required" VNone =
     VBool (if decide (cls = URIParameter) then true else false)).
Proof.
  intros Hrun.
  assert (forall key a, In (key, a) declared_keys -> declares data key = false ->
                        attrs r !! a = Some (key_default cls name key)) as Hdefault.
  { intros key a Hin Hd. apply init_inv in Hrun as (k & -> & Hcls & ->).
    cbn [attrs]. rewrite (named_arguments_lookup _ _ _ _ _ _ key a Hin).
    by rewrite (field_undeclared _ _ _ Hd). }
  assert (attr r "name" = Ok name) as Hname.
  { apply init_inv in Hrun as (k & -> & Hcls & ->).
    unfold attr. by destruct cls. }
  destruct (BaseParameter_merge r ancestors name Hname) as (r' & Hr' & Hin & _).
  exists r'. split; [exact Hr'|].
  split; [|split]; intros Hd.
  - rewrite Hin by (simpl; tauto). unfold merged, getattr.
    by rewrite (Hdefault "type" "type") by (simpl; tauto || done).
  - rewrite Hin by (simpl; tauto). unfold merged, getattr.
    by rewrite (Hdefault "repeat" "repeat") by (simpl; tauto || done).
  - rewrite Hin by (simpl; tauto). unfold merged, getattr.
    by rewrite (Hdefault "required" "required") by (simpl; tauto || done).
Qed.
End Fields.

(** A query parameter that declares only its type. *)
Lemma undeclared_fields_get_defaults_witness :
  exists r,
    @BaseParameter.init lenient QueryParameter (VStr "limit")
      (VDict [(SStr "type", VStr "integer")]) (VDict []) (Alloc 0) []
      empty_store = Ok (r, empty_store) /\
    attrs r !! "display_name" = Some (VStr "limit") /\
    attrs r !! "repeat" = Some (VBool false) /\
    attrs r !! "min_length" = Some VNone.
Proof.
  assert (exists r,
            @BaseParameter.init lenient QueryParameter (VStr "limit")
              (VDict [(SStr "type", VStr "integer")]) (VDict []) (Alloc 0) []
              empty_store = Ok (r, empty_store))
    as [r Hrun] by (eexists; vm_compute; reflexivity).
  exists r. split; [exact Hrun|].
  destruct (@undeclared_fields_get_defaults lenient _ _ _ _ _ _ _ _ _ Hrun)
    as (Hdisplay & _ & Hrepeat & Hoptional).
  split; [exact (Hdisplay eq_refl)|].
  split; [exact (Hrepeat eq_refl)|].
  apply (Hoptional "minLength"); [simpl; tauto|reflexivity].
Defined.

(** A URI parameter declared with [required: null]: the default does not
    apply. *)
Lemma declared_fields_are_kept_witness :
  exists r,
    @BaseParameter.init lenient URIParameter (VStr "id")
      (VDict [(SStr "required", VNone); (SStr "minLength", VInt 2)])
      (VDict []) (Alloc 0) [] empty_store = Ok (r, empty_store) /\
    attrs r !! "required" = Some VNone /\
    attrs r !! "min_length" = Some (VInt 2).
Proof.
  assert (exists r,
            @BaseParameter.init lenient URIParameter (VStr "id")
              (VDict [(SStr "required", VNone); (SStr "minLength", VInt 2)])
              (VDict []) (Alloc 0) [] empty_store = Ok (r, empty_store))
    as [r Hrun] by (eexists; vm_compute; reflexivity).
  exists r. split; [exact Hrun|]. split.
  - apply (@declared_fields_are_kept lenient _ _ _ _ _ _ _ _ _ "required" _ _ Hrun);
      [simpl; tauto|reflexivity].
  - apply (@declared_fields_are_kept lenient _ _ _ _ _ _ _ _ _ "minLength" _ _ Hrun);
      [simpl; tauto|reflexivity].
Defined.

(** A header built for the method "get", and a query parameter. *)
Lemma method_is_the_keyword_witness :
  exists h q,
    @BaseParameter.init lenient Header (VStr "Accept") VNone (VDict [])
      (Alloc 0) [(SStr "method", VStr "get")] empty_store =
      Ok (h, empty_store) /\
    @BaseParameter.init lenient QueryParameter (VStr "limit") VNone (VDict [])
      (Alloc 0) [(SStr "method", VStr "get")] empty_store =
      Ok (q, empty_store) /\
    attrs h !! "method" = Some (VStr "get") /\
    attrs q !! "method" = None.
Proof.
  assert (exists h,
            @BaseParameter.init lenient Header (VStr "Accept") VNone (VDict [])
              (Alloc 0) [(SStr "method", VStr "get")] empty_store =
            Ok (h, empty_store))
    as [h Hh] by (eexists; vm_compute; reflexivity).
  assert (exists q,
            @BaseParameter.init lenient QueryParameter (VStr "limit") VNone
              (VDict []) (Alloc 0) [(SStr "method", VStr "get")] empty_store =
            Ok (q, empty_store))
    as [q Hq] by (eexists; vm_compute; reflexivity).
  exists h, q. split; [exact Hh|]. split; [exact Hq|]. split.
  - exact (@method_is_the_keyword lenient _ _ _ _ _ _ _ _ _ Hh).
  - exact (@method_is_the_keyword lenient _ _ _ _ _ _ _ _ _ Hq).
Defined.

Lemma Body_and_Response_need_a_mapping_witness :
  is_dict VNone = false /\
  (forall r st',
     @Body.init lenient (VStr "text/xml") VNone (VDict []) (Alloc 0) []
       empty_store <> Ok (r, st')) /\
  @Response.init lenient (VInt 200) VNone (VDict []) (Alloc 0) [] empty_store =
    Raise AttributeError.
Proof.
  split; [reflexivity|].
  destruct (@Body_and_Response_need_a_mapping lenient (VStr "text/xml") VNone
              (VDict []) (Alloc 0) [] empty_store eq_refl) as [Hbody _].
  destruct (@Body_and_Response_need_a_mapping lenient (VInt 200) VNone
              (VDict []) (Alloc 0) [] empty_store eq_refl) as [_ Hresp].
  split; [exact Hbody|exact Hresp].
Defined.

(** A described parameter, and a response described by the empty string. *)
Lemma description_of_normalised_record_witness :
  exists r resp,
    @BaseParameter.init lenient QueryParameter (VStr "limit")
      (VDict [(SStr "description", VStr "page size")]) (VDict []) (Alloc 0) []
      empty_store = Ok (r, empty_store) /\
    @Response.init lenient (VInt 200) (VDict [(SStr "description", VStr "")])
      (VDict []) (Alloc 0) [] empty_store = Ok (resp, empty_store) /\
    BaseParameter.description r = Ok (Some (Content_ (VStr "page size"))) /\
    Response.description resp = None.
Proof.
  assert (exists r,
            @BaseParameter.init lenient QueryParameter (VStr "limit")
              (VDict [(SStr "description", VStr "page size")]) (VDict [])
              (Alloc 0) [] empty_store = Ok (r, empty_store))
    as [r Hr] by (eexists; vm_compute; reflexivity).
  assert (exists resp,
            @Response.init lenient (VInt 200)
              (VDict [(SStr "description", VStr "")]) (VDict []) (Alloc 0) []
              empty_store = Ok (resp, empty_store))
    as [resp Hresp] by (eexists; vm_compute; reflexivity).
  exists r, resp. split; [exact Hr|]. split; [exact Hresp|].
  destruct (@description_of_normalised_record lenient _ _ _ _ _ _ _ _ _
              _ _ _ _ _ _ _ _ Hr Hresp) as (Hd & _ & Hrd).
  split; [exact Hd|exact Hrd].
Defined.

(** A bare query parameter keeps the type "string" although its trait says
    "integer". *)
Lemma defaults_shadow_inheritance_witness :
  exists r r',
    @BaseParameter.init lenient QueryParameter (VStr "limit") VNone (VDict [])
      (Alloc 0) [] empty_store = Ok (r, empty_store) /\
    BaseParameter._inherit_type_properties r [limit_trait] = Ok r' /\
    getattr limit_trait "type" VNone = VStr "integer" /\
    getattr r' "type" VNone = VStr "string".
Proof.
  assert (exists r,
            @BaseParameter.init lenient QueryParameter (VStr "limit") VNone
              (VDict []) (Alloc 0) [] empty_store = Ok (r, empty_store))
    as [r Hr] by (eexists; vm_compute; reflexivity).
  destruct (@defaults_shadow_inheritance lenient _ _ _ _ _ _ _ _ _ [limit_trait] Hr)
    as (r' & Hr' & Htype & _).
  exists r, r'. split; [exact Hr|]. split; [exact Hr'|].
  split; [reflexivity|exact (Htype eq_refl)].
Defined.

(** ** Further properties: the algebra of the merge *)

Section MergeAlgebra.
Implicit Types (self a r : instance) (n : string).
Implicit Types (ancestors more : list instance).

Lemma class_of_inherit_attrs names self a :
  class_of (inherit_attrs names self a) = class_of self /\
  errors_of (inherit_attrs names self a) = errors_of self.
Proof.
  unfold inherit_attrs. revert self.
  induction names as [|n names IH]; intros self; simpl; [done|].
  destruct (IH (inherit_attr a self n)) as [-> ->].
  unfold inherit_attr. by destruct (is_None _).
Qed.

(** Inheriting from a chain and then from a second chain is inheriting
    from the two chains joined, for each of the three merges, errors
    included. *)
Theorem merge_chains_compose self ancestors more :
  BaseParameter._inherit_type_properties self (ancestors ++ more) =
    (let? r := BaseParameter._inherit_type_properties self ancestors in
     BaseParameter._inherit_type_properties r more) /\
  Header._inherit_type_properties self (ancestors ++ more) =
    Header._inherit_type_properties
      (Header._inherit_type_properties self ancestors) more /\
  Body._inherit_type_properties self (ancestors ++ more) =
    (let? r := Body._inherit_type_properties self ancestors in
     Body._inherit_type_properties r more).
Proof.
  split; [|split].
  - revert self. induction ancestors as [|a rest IH]; intros self; [done|].
    simpl. destruct (attr self "name") as [nm|e]; [|done]. simpl.
    destruct (py_eq _ nm); apply IH.
  - unfold Header._inherit_type_properties. apply fold_left_app.
  - revert self. induction ancestors as [|a rest IH]; intros self; [done|].
    simpl. destruct (attr a "mime_type") as [t|e]; [|done]. simpl.
    destruct (attr self "mime_type") as [mt|e]; [|done]. simpl.
    destruct (negb (py_eq t mt)); apply IH.
Qed.

(** The ancestors that fail the name test could as well be absent: the
    merge of a named record gives the same record with and without them.
    An ancestor without a [name] is tested on its [code]. *)
Theorem unrelated_ancestors_are_ignored self ancestors nm :
  attr self "name" = Ok nm ->
  BaseParameter._inherit_type_properties self ancestors =
  BaseParameter._inherit_type_properties self
    (List.filter
       (fun a => py_eq (getattr a "name" (getattr a "code" VNone)) nm)
       ancestors).
Proof.
  revert self. induction ancestors as [|a rest IH]; intros self Hname; [done|].
  rewrite merge_step, Hname. cbn [obind List.filter].
  destruct (py_eq (getattr a "name" (getattr a "code" VNone)) nm) eqn:Hm.
  - rewrite merge_step, Hname. cbn [obind]. rewrite Hm. apply IH.
    unfold attr in *.
    by rewrite attrs_inherit_attrs_other by apply name_not_inherited.
  - by apply IH.
Qed.

Lemma unrelated_ancestors_are_ignored_witness :
  attr limit_bare "name" = Ok (VStr "limit") /\
  BaseParameter._inherit_type_properties limit_bare
    [offset_trait; limit_trait; offset_trait] =
  BaseParameter._inherit_type_properties limit_bare [limit_trait].
Proof.
  split; [reflexivity|].
  exact (unrelated_ancestors_are_ignored limit_bare
           [offset_trait; limit_trait; offset_trait] (VStr "limit") eq_refl).
Defined.

Lemma merged_again matches n self r ancestors :
  getattr r n VNone = merged matches n self ancestors ->
  merged matches n r ancestors = getattr r n VNone.
Proof.
  unfold merged. intros Hr.
  destruct (is_None (getattr r n VNone)) eqn:Er; [|done].
  apply is_None_true in Er. rewrite Er in *.
  destruct (is_None (getattr self n VNone)) eqn:Es; [done|].
  rewrite <- Hr in Es. done.
Qed.

(** Merging a second time with the same ancestors changes nothing that can
    be read: every attribute has the value the first merge gave it. *)
Theorem merge_is_idempotent self ancestors nm :
  attr self "name" = Ok nm ->
  (exists r r',
     BaseParameter._inherit_type_properties self ancestors = Ok r /\
     BaseParameter._inherit_type_properties r ancestors = Ok r' /\
     forall n, getattr r' n VNone = getattr r n VNone) /\
  (forall n,
     getattr (Header._inherit_type_properties
                (Header._inherit_type_properties self ancestors) ancestors)
             n VNone =
     getattr (Header._inherit_type_properties self ancestors) n VNone).
Proof.
  intros Hname. split.
  - destruct (BaseParameter_merge self ancestors nm Hname) as (r & Hr & Hin & Hout).
    assert (attr r "name" = Ok nm) as Hrname.
    { unfold attr in *. by rewrite Hout by apply name_not_inherited. }
    destruct (BaseParameter_merge r ancestors nm Hrname) as (r' & Hr' & Hin' & Hout').
    exists r, r'. split; [done|]. split; [done|].
    intros n. destruct (in_dec string_dec n NAMED_PARAMS) as [Hn|Hn].
    + rewrite Hin' by done. apply (merged_again _ _ self). by apply Hin.
    + unfold getattr. by rewrite Hout'.
  - destruct (Header_merge self ancestors) as [Hin Hout].
    destruct (Header_merge (Header._inherit_type_properties self ancestors)
                ancestors) as [Hin' Hout'].
    intros n.
    destruct (in_dec string_dec n (NAMED_PARAMS ++ ["method"])%list) as [Hn|Hn].
    + rewrite Hin' by done. apply (merged_again _ _ self). by apply Hin.
    + unfold getattr. by rewrite Hout'.
Qed.

Lemma merge_is_idempotent_witness :
  attr limit_bare "name" = Ok (VStr "limit") /\
  exists r r',
    BaseParameter._inherit_type_properties limit_bare
      [offset_trait; limit_trait] = Ok r /\
    BaseParameter._inherit_type_properties r [offset_trait; limit_trait] = Ok r' /\
    getattr r' "type" VNone = VStr "integer" /\
    getattr r' "desc" VNone = VStr "page size".
Proof.
  split; [reflexivity|].
  destruct (merge_is_idempotent limit_bare [offset_trait; limit_trait]
              (VStr "limit") eq_refl) as [(r & r' & Hr & Hr' & Hsame) _].
  exists r, r'. split; [exact Hr|]. split; [exact Hr'|].
  rewrite !Hsame. vm_compute in Hr. injection Hr as <-.
  split; vm_compute; reflexivity.
Defined.

Lemma class_of_merge_loop names : forall ancestors self,
  class_of (fold_left (inherit_attrs names) ancestors self) = class_of self /\
  errors_of (fold_left (inherit_attrs names) ancestors self) = errors_of self.
Proof.
  induction ancestors as [|a rest IH]; intros self; cbn [fold_left]; [done|].
  destruct (IH (inherit_attrs names self a)) as [-> ->].
  apply class_of_inherit_attrs.
Qed.

(** A merge changes nothing but the inheritable attributes: the class of
    the record, the list its [errors] refers to and, for the merge of
    [BaseParameter], every attribute outside [NAMED_PARAMS] ([name], [raw]
    and [config] among them) are as before. *)
Theorem merge_frame self ancestors r :
  BaseParameter._inherit_type_properties self ancestors = Ok r ->
  class_of r = class_of self /\
  errors_of r = errors_of self /\
  (forall n, ~ In n NAMED_PARAMS -> attrs r !! n = attrs self !! n) /\
  class_of (Header._inherit_type_properties self ancestors) = class_of self /\
  errors_of (Header._inherit_type_properties self ancestors) = errors_of self.
Proof.
  intros Hrun.
  assert (class_of r = class_of self /\ errors_of r = errors_of self /\
          forall n, ~ In n NAMED_PARAMS -> attrs r !! n = attrs self !! n)
    as (Hc & He & Ha).
  { revert self Hrun. induction ancestors as [|a rest IH]; intros self Hrun.
    - by injection Hrun as <-.
    - rewrite merge_step in Hrun.
      destruct (attr self "name") as [nm|e]; [|done].
      cbn [obind] in Hrun. destruct (py_eq _ nm).
      + apply IH in Hrun as (Hc & He & Ha).
        destruct (class_of_inherit_attrs NAMED_PARAMS self a) as [Hc' He'].
        rewrite Hc, He, Hc', He'. repeat split.
        intros n Hn. rewrite (Ha n Hn).
        exact (attrs_inherit_attrs_other _ _ _ _ Hn).
      + by apply IH. }
  split; [exact Hc|]. split; [exact He|]. split; [exact Ha|].
  exact (class_of_merge_loop (NAMED_PARAMS ++ ["method"])%list ancestors self).
Qed.

Lemma merge_frame_witness :
  exists r,
    BaseParameter._inherit_type_properties limit_bare
      [offset_trait; limit_trait] = Ok r /\
    class_of r = Named QueryParameter /\
    errors_of r = Alloc 0 /\
    attrs r !! "name" = Some (VStr "limit").
Proof.
  assert (exists r, BaseParameter._inherit_type_properties limit_bare
                      [offset_trait; limit_trait] = Ok r) as [r Hr]
    by (eexists; reflexivity).
  exists r. split; [exact Hr|].
  destruct (merge_frame limit_bare [offset_trait; limit_trait] r Hr)
    as (Hc & He & Ha & _).
  split; [exact Hc|]. split; [exact He|].
  rewrite Ha by (simpl; intuition discriminate). reflexivity.
Defined.
End MergeAlgebra.

(** ** Further properties: the errors lists *)

Section Store.
Context `{Env}.

























End Store.



(** ** Further properties: security schemes *)

Section Schemes.
Context `{Env}.

(** The declared fields of a scheme agree. *)
Local Abbreviation same_fields s s' :=
  (ss_name s' = ss_name s /\ ss_raw s' = ss_raw s /\ ss_type s' = ss_type s /\
   ss_described_by s' = ss_described_by s /\ ss_desc s' = ss_desc s /\
   ss_settings s' = ss_settings s /\ ss_config s' = ss_config s /\
   ss_errors s' = ss_errors s).

Lemma attached_after_attach scheme n a m b :
  In n attachable ->
  (forall k c, ss_attached scheme !! k = Some c -> In k attachable) ->
  ss_attached (SecurityScheme.attach scheme n a) !! m = Some b ->
  In m attachable.
Proof.
  intros Hn Hold. simpl. destruct (decide (n = m)) as [<-|Hne]; [done|].
  rewrite lookup_insert_ne by done. apply Hold.
Qed.

Lemma lookup_classes obj key value :
  SecurityScheme.lookup obj SecurityScheme.classes = Some (key, value) ->
  In (match value with
      | SecurityScheme.Renamed n _ => n
      | SecurityScheme.Plain _ => key
      end) attachable.
Proof.
  unfold SecurityScheme.classes. simpl.
  repeat (destruct (scalar_eq _ obj); [intros [= <- <-]; simpl; tauto|]).
  done.
Qed.

Lemma lookup_other obj key n :
  SecurityScheme.lookup obj SecurityScheme.other = Some (key, n) ->
  In n attachable.
Proof.
  unfold SecurityScheme.other. simpl.
  repeat (destruct (scalar_eq _ obj); [intros [= <- <-]; simpl; tauto|]).
  done.
Qed.

Lemma describe_by_inv root scheme item st scheme' st' :
  SecurityScheme.describe_by root scheme item st = Ok (scheme', st') ->
  (forall k c, ss_attached scheme !! k = Some c -> In k attachable) ->
  same_fields scheme scheme' /\
  (forall k c, ss_attached scheme' !! k = Some c -> In k attachable).
Proof.
  unfold SecurityScheme.describe_by. intros Hrun Hold.
  destruct (SecurityScheme.lookup (fst item) SecurityScheme.classes)
    as [[key value]|] eqn:Hc.
  - apply bind_ok in Hrun as (l & s1 & _ & Hrun).
    apply ret_ok in Hrun as [-> ->]. split; [done|].
    intros k c. apply attached_after_attach; [|done].
    by apply (lookup_classes (fst item)).
  - destruct (scalar_eq (fst item) (SStr "documentation")).
    + destruct (snd item) as [s|entries|d]; try discriminate.
      apply bind_ok in Hrun as (docs & s1 & _ & Hrun).
      apply ret_ok in Hrun as [-> ->]. split; [done|].
      intros k c. apply attached_after_attach; [simpl; tauto|done].
    + destruct (SecurityScheme.lookup (fst item) SecurityScheme.other)
        as [[k n]|] eqn:Ho.
      * apply ret_ok in Hrun as [-> ->]. split; [done|].
        intros k' c. apply attached_after_attach; [|done].
        by apply (lookup_other (fst item) k).
      * apply ret_ok in Hrun as [-> ->]. done.
Qed.

Lemma describe_all_inv root items : forall scheme st scheme' st',
  SecurityScheme.describe_all root scheme items st = Ok (scheme', st') ->
  (forall k c, ss_attached scheme !! k = Some c -> In k attachable) ->
  same_fields scheme scheme' /\
  (forall k c, ss_attached scheme' !! k = Some c -> In k attachable).
Proof.
  induction items as [|item items IH]; intros scheme st scheme' st' Hrun Hold.
  - apply ret_ok in Hrun as [-> ->]. done.
  - simpl in Hrun. apply bind_ok in Hrun as (mid & s1 & Hmid & Hrun).
    apply describe_by_inv in Hmid as [Hsame Hmidold]; [|done].
    apply IH in Hrun as [Hsame' Hnew]; [|done].
    split; [|done].
    destruct Hsame as (E1 & E2 & E3 & E4 & E5 & E6 & E7 & E8).
    destruct Hsame' as (F1 & F2 & F3 & F4 & F5 & F6 & F7 & F8).
    repeat split; congruence.
Qed.

Lemma scheme_of_inv root s st scheme st' :
  SecurityScheme.scheme_of root s st = Ok (scheme, st') ->
  scheme_for root s scheme.
Proof.
  unfold SecurityScheme.scheme_of. intros Hrun.
  apply bind_ok in Hrun as (entries & s0 & Hentries & Hrun).
  apply lift_ok in Hentries as [Hentries ->].
  destruct s as [sc|l|d]; try discriminate. injection Hentries as ->.
  destruct entries as [|[name data] rest]; [discriminate|].
  destruct data as [sc|l|d]; try discriminate.
  cbn [py_get lift bind] in Hrun.
  apply bind_ok in Hrun as (u1 & s1 & _ & Hrun).
  apply bind_ok in Hrun as (u2 & s2 & _ & Hrun).
  apply bind_ok in Hrun as (items & s3 & _ & Hrun).
  apply describe_all_inv in Hrun as [Hsame Hnew]; [|done].
  simpl in Hsame. destruct Hsame as (? & ? & ? & ? & ? & ? & ? & ?).
  exists name, (VDict d), rest. repeat split; done.
Qed.

(** [from_file] builds one scheme per entry of [securitySchemes], in
    order: each is named after the first key of its entry, keeps the
    declaration under that key as [raw] and reads [type], [describedBy],
    [description] and [settings] from it, holds the configuration and the
    errors list of the root, and has nothing attached but the ten known
    attributes.  The result is [None], never the empty list, when there is
    no scheme. *)
Theorem from_file_one_scheme_per_entry raml root st res st' :
  SecurityScheme.from_file raml root st = Ok (res, st') ->
  exists items schemes,
    is_dict raml = true /\
    SecurityScheme.py_iter (field raml "securitySchemes" (VList [])) = Ok items /\
    res = or_None schemes /\
    (res = None <-> items = []) /\
    Forall2 (scheme_for root) items schemes.
Proof.
  unfold SecurityScheme.from_file. intros Hrun.
  apply bind_ok in Hrun as (declared & s0 & Hget & Hrun).
  apply lift_ok in Hget as [Hget ->].
  apply bind_ok in Hrun as (items & s1 & Hiter & Hrun).
  apply lift_ok in Hiter as [Hiter ->].
  apply bind_ok in Hrun as (schemes & s2 & Hschemes & Hrun).
  apply ret_ok in Hrun as [-> ->].
  destruct raml as [sc|l|d]; try discriminate.
  simpl in Hget. injection Hget as <-.
  assert (Forall2 (scheme_for root) items schemes) as Hall.
  { eapply for_each_Forall2; [|exact Hschemes].
    intros s sa scheme sb. apply scheme_of_inv. }
  exists items, schemes. repeat split; try done.
  - destruct Hall; [done|discriminate].
  - intros ->. by inversion Hall.
Qed.

(** A key of [describedBy] outside the table is skipped: the scheme and
    the store stay as they are.  The keys "usage", "mediaType" and
    "protocols" attach their value as it is, under [usage], [media_type]
    and [protocols]. *)
Theorem describedBy_keys_outside_the_table root scheme obj scheme_data st :
  ((forall k, In k handled_keys -> obj <> SStr k) ->
   SecurityScheme.describe_by root scheme (obj, scheme_data) st =
     Ok (scheme, st)) /\
  (forall k n, In (k, n) SecurityScheme.other ->
     SecurityScheme.describe_by root scheme (SStr k, scheme_data) st =
       Ok (SecurityScheme.attach scheme n (Verbatim scheme_data), st)).
Proof.
  split.
  - intros Hout.
    assert (forall k, In k handled_keys -> scalar_eq (SStr k) obj = false) as Hne.
    { intros k Hk. specialize (Hout k Hk).
      destruct obj as [|b|z|s]; try done.
      unfold scalar_eq. simpl. apply String.eqb_neq. congruence. }
    unfold SecurityScheme.describe_by. simpl.
    rewrite !Hne by (simpl; tauto).
    assert (scalar_eq obj (SStr "documentation") = false) as ->.
    { specialize (Hout "documentation"). destruct obj as [|b|z|s]; try done.
      unfold scalar_eq. simpl. apply String.eqb_neq. intros ->.
      apply Hout; [simpl; tauto|done]. }
    done.
  - intros k n Hin. simpl in Hin.
    repeat (destruct Hin as [[= <- <-]|Hin]; [done|]). destruct Hin.
Qed.
End Schemes.

(** The document of the example: one scheme, named after its key, with
    its headers attached. *)
Lemma from_file_one_scheme_per_entry_witness :
  exists scheme st',
    @SecurityScheme.from_file lenient document_with_scheme
      (RootNode (VDict []) (Alloc 1)) empty_store = Ok (Some [scheme], st') /\
    ss_name scheme = VStr "oauth_2_0" /\
    ss_errors scheme = Alloc 1.
Proof.
  assert (exists res st',
            @SecurityScheme.from_file lenient document_with_scheme
              (RootNode (VDict []) (Alloc 1)) empty_store = Ok (res, st'))
    as (res & st' & Hrun) by (eexists; eexists; vm_compute; reflexivity).
  destruct (@from_file_one_scheme_per_entry lenient _ _ _ _ _ Hrun)
    as (items & schemes & _ & Hitems & -> & _ & Hall).
  injection Hitems as <-.
  inversion Hall as [|s scheme l ss Hfor Hrest]; subst.
  inversion Hrest; subst.
  exists scheme, st'. split; [exact Hrun|].
  destruct Hfor as (name & data & rest & [= <- <- <-] & _ & Hname & _ & _ & _ & _
                    & _ & _ & Herrors & _).
  split; [exact Hname|exact Herrors].
Defined.

(** A scheme described by an unknown key and by "usage". *)
Lemma describedBy_keys_outside_the_table_witness :
  (forall k, In k handled_keys -> SStr "x-vendor" <> SStr k) /\
  @SecurityScheme.describe_by lenient (RootNode (VDict []) (Alloc 1)) bare_scheme
    (SStr "x-vendor", VStr "anything") empty_store =
    Ok (bare_scheme, empty_store) /\
  @SecurityScheme.describe_by lenient (RootNode (VDict []) (Alloc 1)) bare_scheme
    (SStr "mediaType", VStr "text/xml") empty_store =
    Ok (SecurityScheme.attach bare_scheme "media_type" (Verbatim (VStr "text/xml")),
        empty_store).
Proof.
  assert (forall k, In k handled_keys -> SStr "x-vendor" <> SStr k) as Hout.
  { intros k Hk. simpl in Hk. intuition (subst; discriminate). }
  split; [exact Hout|]. split.
  - exact (proj1 (@describedBy_keys_outside_the_table lenient _ bare_scheme
                    (SStr "x-vendor") (VStr "anything") empty_store) Hout).
  - apply (proj2 (@describedBy_keys_outside_the_table lenient _ bare_scheme
                    (SStr "x-vendor") (VStr "text/xml") empty_store)).
    simpl. tauto.
Defined.

(** ** Further properties: the merge of responses *)

Section ResponseMerge.
Implicit Types (self param o : response_object) (n m : string).

Lemma named_is_desc_or_added n :
  In n NAMED_PARAMS ->
  n = "desc" \/
  (n <> "desc" /\
   (forall o d, Response.getattr o n d =
                match added o !! n with Some v => v | None => d end) /\
   (forall o v, Response.setattr o n v =
                ResponseObject (declared o) (<[n := v]> (added o)))).
Proof.
  intros Hn. simpl in Hn.
  destruct Hn as [<-|Hn]; [by left|].
  repeat (destruct Hn as [<-|Hn]; [right; by repeat split|]).
  destruct Hn.
Qed.

Lemma Response_get_set o n m v :
  In n NAMED_PARAMS -> In m NAMED_PARAMS ->
  Response.getattr (Response.setattr o n v) m VNone =
  if decide (n = m) then v else Response.getattr o m VNone.
Proof.
  intros Hn Hm.
  destruct (named_is_desc_or_added n Hn) as [->|(Hnd & Hng & Hns)],
           (named_is_desc_or_added m Hm) as [->|(Hmd & Hmg & Hms)].
  - done.
  - rewrite decide_False by done. by rewrite !Hmg.
  - rewrite decide_False by done. by rewrite Hns.
  - rewrite Hns, !Hmg. simpl.
    destruct (decide (n = m)) as [->|Hne].
    + by rewrite lookup_insert_eq.
    + by rewrite lookup_insert_ne.
Qed.

Lemma Response_set_frame o n v :
  In n NAMED_PARAMS ->
  let r := declared o in
  let r' := declared (Response.setattr o n v) in
  resp_code r' = resp_code r /\ resp_raw r' = resp_raw r /\
  resp_headers r' = resp_headers r /\ resp_body r' = resp_body r /\
  resp_config r' = resp_config r /\ resp_errors r' = resp_errors r /\
  resp_method r' = resp_method r.
Proof.
  intros Hn. destruct (named_is_desc_or_added n Hn) as [->|(_ & _ & Hns)].
  - done.
  - by rewrite Hns.
Qed.

Lemma Response_inherit_attr_get param self n m :
  In n NAMED_PARAMS -> In m NAMED_PARAMS ->
  Response.getattr (Response.inherit_attr param self n) m VNone =
  if decide (n = m)
  then (if is_None (Response.getattr self m VNone)
        then Response.getattr param m VNone
        else Response.getattr self m VNone)
  else Response.getattr self m VNone.
Proof.
  intros Hn Hm. unfold Response.inherit_attr.
  destruct (decide (n = m)) as [->|Hne].
  - destruct (is_None (Response.getattr self m VNone)) eqn:E; [|done].
    rewrite Response_get_set by done. by rewrite decide_True.
  - destruct (is_None (Response.getattr self n VNone)); [|done].
    rewrite Response_get_set by done. by rewrite decide_False.
Qed.

Lemma Response_inherit_attrs_get names param m : forall self,
  (forall n, In n names -> In n NAMED_PARAMS) -> In m NAMED_PARAMS ->
  Response.getattr (fold_left (Response.inherit_attr param) names self) m VNone =
  if in_dec string_dec m names
  then (if is_None (Response.getattr self m VNone)
        then Response.getattr param m VNone
        else Response.getattr self m VNone)
  else Response.getattr self m VNone.
Proof.
  induction names as [|n names IH]; intros self Hsub Hm; [done|].
  cbn [fold_left].
  rewrite IH by (done || (intros k Hk; apply Hsub; by right)).
  rewrite Response_inherit_attr_get by (done || (apply Hsub; by left)).
  destruct (in_dec string_dec m names) as [Hin|Hout],
           (in_dec string_dec m (n :: names)) as [Hin'|Hout'];
    try (destruct Hout'; by right).
  - destruct (decide (n = m)) as [->|Hne]; [|done].
    destruct (is_None (Response.getattr self m VNone)) eqn:E; [|by rewrite E].
    by destruct (is_None (Response.getattr param m VNone)).
  - destruct Hin' as [->|Hin']; [|done]. by rewrite decide_True.
  - destruct (decide (n = m)) as [->|Hne]; [|done]. destruct Hout'. by left.
Qed.

Lemma Response_inherit_attrs_frame names param : forall self,
  (forall n, In n names -> In n NAMED_PARAMS) ->
  let r := declared self in
  let r' := declared (fold_left (Response.inherit_attr param) names self) in
  resp_code r' = resp_code r /\ resp_raw r' = resp_raw r /\
  resp_headers r' = resp_headers r /\ resp_body r' = resp_body r /\
  resp_config r' = resp_config r /\ resp_errors r' = resp_errors r /\
  resp_method r' = resp_method r.
Proof.
  induction names as [|n names IH]; intros self Hsub; [done|].
  cbn [fold_left]. cbv zeta.
  destruct (IH (Response.inherit_attr param self n))
    as (-> & -> & -> & -> & -> & -> & ->).
  { intros k Hk. apply Hsub. by right. }
  unfold Response.inherit_attr.
  destruct (is_None _); [|done].
  apply Response_set_frame. apply Hsub. by left.
Qed.

(** The merge loop of a response over any names taken from
    [NAMED_PARAMS]. *)
Lemma Response_merge_loop names :
  (forall n, In n names -> In n NAMED_PARAMS) ->
  forall ancestors self,
    let merged_response :=
      fold_left (fun self param => fold_left (Response.inherit_attr param) names self)
                ancestors self in
    (forall n, In n names ->
       Response.getattr merged_response n VNone =
       if is_None (Response.getattr self n VNone)
       then first_set (fun a => Response.getattr a n VNone) ancestors
       else Response.getattr self n VNone) /\
    resp_code (declared merged_response) = resp_code (declared self) /\
    resp_raw (declared merged_response) = resp_raw (declared self) /\
    resp_headers (declared merged_response) = resp_headers (declared self) /\
    resp_body (declared merged_response) = resp_body (declared self) /\
    resp_config (declared merged_response) = resp_config (declared self) /\
    resp_errors (declared merged_response) = resp_errors (declared self) /\
    resp_method (declared merged_response) = resp_method (declared self).
Proof.
  intros Hsub. cbv zeta.
  induction ancestors as [|a rest IH]; intros self.
  - cbn [fold_left]. split; [|done]. intros n _. unfold first_set.
    cbn [List.find].
    destruct (is_None (Response.getattr self n VNone)) eqn:E; [|done].
    by apply is_None_true.
  - cbn [fold_left].
    destruct (IH (fold_left (Response.inherit_attr a) names self))
      as (Hget & E1 & E2 & E3 & E4 & E5 & E6 & E7).
    destruct (Response_inherit_attrs_frame names a self Hsub)
      as (F1 & F2 & F3 & F4 & F5 & F6 & F7).
    split; [|repeat split; congruence].
    intros n Hn. rewrite (Hget n Hn).
    rewrite (Response_inherit_attrs_get names a n self Hsub (Hsub n Hn)).
    destruct (in_dec string_dec n names) as [_|Hout]; [|done].
    unfold first_set. cbn [List.find].
    destruct (is_None (Response.getattr self n VNone)) eqn:Es;
      destruct (is_None (Response.getattr a n VNone)) eqn:Ea;
      cbn [negb]; rewrite ?Es, ?Ea; done.
Qed.

(** The merge of [Response] tests no identity at all: each attribute of
    [NAMED_PARAMS] that the response has unset takes the value of the first
    ancestor that has it set, whatever the ancestor's code, and a set one is
    kept.  [desc] is the only declared attribute among them; the others
    become new attributes of the instance.  The code, the raw declaration,
    the headers, the bodies, the configuration, the errors list and the
    method are as before. *)
Theorem Response_merge_has_no_identity_test self ancestors :
  let merged_response := Response._inherit_type_properties self ancestors in
  (forall n, In n NAMED_PARAMS ->
     Response.getattr merged_response n VNone =
     if is_None (Response.getattr self n VNone)
     then first_set (fun a => Response.getattr a n VNone) ancestors
     else Response.getattr self n VNone) /\
  resp_code (declared merged_response) = resp_code (declared self) /\
  resp_raw (declared merged_response) = resp_raw (declared self) /\
  resp_headers (declared merged_response) = resp_headers (declared self) /\
  resp_body (declared merged_response) = resp_body (declared self) /\
  resp_config (declared merged_response) = resp_config (declared self) /\
  resp_errors (declared merged_response) = resp_errors (declared self) /\
  resp_method (declared merged_response) = resp_method (declared self).
Proof.
  exact (Response_merge_loop NAMED_PARAMS (fun n Hn => Hn) ancestors self).
Qed.
End ResponseMerge.

Lemma Response_merge_has_no_identity_test_witness :
  In "desc" NAMED_PARAMS /\ In "type" NAMED_PARAMS /\
  Response.getattr
    (Response._inherit_type_properties plain_response
       [silent_response; described_response]) "desc" VNone =
    VStr "Server error" /\
  Response.getattr
    (Response._inherit_type_properties plain_response
       [silent_response; described_response]) "type" VNone =
    VStr "object" /\
  resp_code
    (declared (Response._inherit_type_properties plain_response
                 [silent_response; described_response])) = VInt 404.
Proof.
  assert (In "desc" NAMED_PARAMS) as H1 by (simpl; tauto).
  assert (In "type" NAMED_PARAMS) as H2 by (simpl; tauto).
  destruct (Response_merge_has_no_identity_test plain_response
              [silent_response; described_response]) as (Hget & Hcode & _).
  split; [exact H1|]. split; [exact H2|].
  split; [rewrite (Hget "desc" H1); reflexivity|].
  split; [rewrite (Hget "type" H2); reflexivity|].
  rewrite Hcode. reflexivity.
Defined.

(** ** Further properties: codes that cannot be ordered *)

Section MixedKeys.
Context {A : Type} (key : A -> value).

Lemma py_lt_scalar_ok a b r :
  py_lt (VScalar a) (VScalar b) = Ok r -> comparable (VScalar a) (VScalar b).
Proof.
  simpl. unfold scalar_lt.
  destruct (as_number a) as [x|] eqn:Ea, (as_number b) as [y|] eqn:Eb.
  - intros _. left. by exists a, b, x, y.
  - destruct a, b; try done.
  - destruct a, b; try done.
  - destruct a as [| | |s], b as [| | |t]; try done.
    intros _. right. by exists s, t.
Qed.

Lemma py_lt_scalar_raise a b e :
  py_lt (VScalar a) (VScalar b) = Raise e -> e = TypeError.
Proof.
  simpl. unfold scalar_lt.
  destruct (as_number a), (as_number b); try done;
    destruct a, b; try done; by intros [= <-].
Qed.

Lemma comparable_sym u v : comparable u v -> comparable v u.
Proof.
  intros [(a & b & x & y & -> & -> & Ha & Hb)|(s & t & -> & ->)].
  - left. by exists b, a, y, x.
  - right. by exists t, s.
Qed.

Lemma comparable_trans u v w : comparable u v -> comparable v w -> comparable u w.
Proof.
  intros [(a & b & x & y & -> & -> & Ha & Hb)|(s & t & -> & ->)]
         [(b' & c & y' & z & Eb & -> & Hb' & Hc)|(t' & r & Et & ->)].
  - left. by exists a, c, x, z.
  - injection Et as ->. discriminate.
  - injection Eb as <-. discriminate.
  - right. by exists s, r.
Qed.

Lemma insert_sorted_raise x l e :
  Forall (scalar_keyed key) (x :: l) ->
  insert_sorted key x l = Raise e -> e = TypeError.
Proof.
  induction l as [|y l IH]; intros Hkeys; simpl; [done|].
  inversion Hkeys as [|? ? Hsx Hrest]; subst.
  inversion Hrest as [|? ? Hsy Hl]; subst.
  destruct Hsx as [kx Hx] eqn:Ex, Hsy as [ky Hy] eqn:Ey.
  destruct (py_lt (key y) (key x)) as [[]|e'] eqn:Hlt; simpl.
  - destruct (insert_sorted key x l) as [r|e''] eqn:Hins; simpl; [done|].
    intros [= <-]. apply IH; [|done]. by constructor.
  - done.
  - intros [= <-]. rewrite Hx, Hy in Hlt. by apply py_lt_scalar_raise in Hlt.
Qed.

Lemma sorted_raise l e :
  Forall (scalar_keyed key) l -> sorted key l = Raise e -> e = TypeError.
Proof.
  induction l as [|x l IH]; intros Hkeys; simpl; [done|].
  inversion Hkeys as [|? ? Hx Hl]; subst.
  destruct (sorted key l) as [s|e'] eqn:Hs; simpl.
  - apply insert_sorted_raise. constructor; [done|].
    by apply (Permutation_Forall (sorted_perm _ _ _ Hs)).
  - intros [= <-]. by apply IH.
Qed.

Lemma sorted_ok_comparable l s :
  Forall (scalar_keyed key) l ->
  sorted key l = Ok s ->
  (forall x y, In x l -> In y l -> comparable (key x) (key y)) \/
  (length l <= 1)%nat.
Proof.
  revert s. induction l as [|x l IH]; intros s Hkeys; simpl.
  - intros _. right. lia.
  - inversion Hkeys as [|? ? Hsx Hl]; subst.
    destruct (sorted key l) as [s'|] eqn:Hs; simpl; [|done].
    intros Hins.
    destruct l as [|y0 l0]; [right; simpl; lia|]. left.
    pose proof (sorted_perm _ _ _ Hs) as Hperm.
    destruct s' as [|h s'].
    { apply Permutation_length in Hperm. discriminate. }
    assert (In h (y0 :: l0)) as Hh.
    { apply (Permutation_in _ (Permutation_sym Hperm)). by left. }
    assert (comparable (key h) (key x)) as Hhx.
    { simpl in Hins.
      destruct (py_lt (key h) (key x)) as [b|] eqn:Hlt; [|done].
      rewrite List.Forall_forall in Hl.
      destruct (Hl h Hh) as [kh Hkh], Hsx as [kx Hkx].
      rewrite Hkh, Hkx in *. by apply py_lt_scalar_ok in Hlt. }
    assert (forall z, In z (y0 :: l0) -> comparable (key z) (key h)) as Hzh.
    { intros z Hz. destruct (IH (h :: s') Hl eq_refl) as [Hall|Hone].
      - by apply Hall.
      - destruct l0; [|simpl in Hone; lia].
        destruct Hz as [<-|[]], Hh as [<-|[]].
        eapply comparable_trans; [exact Hhx|by apply comparable_sym]. }
    assert (forall z, In z (y0 :: l0) -> comparable (key z) (key x)) as Hzx.
    { intros z Hz. eapply comparable_trans; [by apply Hzh|done]. }
    intros a b [<-|Ha] [<-|Hb].
    + eapply comparable_trans; [apply comparable_sym|]; exact Hhx.
    + apply comparable_sym. by apply Hzx.
    + by apply Hzx.
    + eapply comparable_trans; [by apply Hzx|].
      apply comparable_sym. by apply Hzx.
Qed.

(** The sort raises [TypeError] on a list that holds both a number and a
    text among its keys. *)
Lemma sorted_mixed l a b ka za tb :
  Forall (scalar_keyed key) l ->
  In a l -> In b l ->
  key a = VScalar ka -> as_number ka = Some za -> key b = VStr tb ->
  sorted key l = Raise TypeError.
Proof.
  intros Hkeys Ha Hb Hka Hza Hkb.
  destruct (sorted key l) as [s|e] eqn:Hs.
  - exfalso. destruct (sorted_ok_comparable l s Hkeys Hs) as [Hall|Hone].
    + specialize (Hall a b Ha Hb). rewrite Hka, Hkb in Hall.
      destruct Hall as [(? & ? & ? & y & [= <-] & [= <-] & _ & Hy)
                       |(? & ? & [= ->] & _)]; simpl in *; discriminate.
    + destruct l as [|x [|y l]]; simpl in *; [done| |lia].
      destruct Ha as [<-|[]], Hb as [<-|[]].
      rewrite Hka in Hkb. injection Hkb as ->. discriminate.
  - f_equal. by apply (sorted_raise l).
Qed.
End MixedKeys.

Section MixedCodes.
Context `{Env}.

(** Responses declared under a number and under a text, as 200 and
    "default" are, cannot be listed: once each of them is normalised,
    [Response.init_list] raises [TypeError] in the sort. *)
Theorem mixed_codes_cannot_be_sorted data config errors kwargs st items declared st'
    kn z t :
  iteritems data = Ok items ->
  for_each (fun kv => Response.init (VScalar (fst kv)) (snd kv) config errors kwargs)
           items st = Ok (declared, st') ->
  In kn (map fst items) -> as_number kn = Some z ->
  In (SStr t) (map fst items) ->
  Response.init_list data config errors kwargs st = Raise TypeError.
Proof.
  intros Hitems Hdeclared Hkn Hz Ht.
  pose proof (Response_for_each_codes _ _ _ _ _ _ _ Hdeclared) as Hcodes.
  assert (forall k, In k (map fst items) ->
                    exists r, In r declared /\ resp_code r = VScalar k) as Hfind.
  { intros k Hk. apply (in_map VScalar) in Hk.
    rewrite map_map, <- Hcodes in Hk.
    apply in_map_iff in Hk as (r & Hr & Hin). by exists r. }
  destruct (Hfind kn Hkn) as (a & Ha & Hka), (Hfind (SStr t) Ht) as (b & Hb & Hkb).
  unfold Response.init_list. rewrite Hitems.
  unfold bind. simpl. rewrite Hdeclared. unfold lift.
  rewrite (sorted_mixed resp_code declared a b kn z t); try done.
  apply List.Forall_forall. intros r Hr.
  apply (in_map resp_code) in Hr. rewrite Hcodes in Hr.
  apply in_map_iff in Hr as (kv & Hkv & _). by exists (fst kv).
Qed.
End MixedCodes.

Lemma mixed_codes_cannot_be_sorted_witness :
  exists declared,
    for_each (fun kv => @Response.init lenient (VScalar (fst kv)) (snd kv)
                          (VDict []) (Alloc 0) [])
      [(SInt 200, VDict []); (SStr "default", VDict [])] empty_store =
      Ok (declared, empty_store) /\
    @Response.init_list lenient mixed_responses (VDict []) (Alloc 0) []
      empty_store = Raise TypeError.
Proof.
  assert (exists declared,
            for_each (fun kv => @Response.init lenient (VScalar (fst kv)) (snd kv)
                                  (VDict []) (Alloc 0) [])
              [(SInt 200, VDict []); (SStr "default", VDict [])] empty_store =
            Ok (declared, empty_store))
    as [declared Hdeclared] by (eexists; vm_compute; reflexivity).
  exists declared. split; [exact Hdeclared|].
  apply (@mixed_codes_cannot_be_sorted lenient mixed_responses (VDict []) (Alloc 0)
           [] empty_store _ declared empty_store (SInt 200) 200%Z "default"
           eq_refl Hdeclared).
  - simpl. tauto.
  - reflexivity.
  - simpl. tauto.
Defined.
